(** * Batch vectorization pipeline: backfill (embedder.py) and query
      (embedder_test.py)

    Both scripts are straight-line drivers of two external collaborators: a
    PostgreSQL connection (psycopg2) and an embedding provider (OpenAI).  The
    embedding below keeps the Python control flow as it is written and makes
    the collaborators explicit:

    - the database is a finite map from table names to tables; a table has a
      catalog of typed columns, a primary-key constraint and a list of rows,
      a row is a finite map from column names to values (absent = NULL);
    - a connection has a committed state and a session state (the pending
      transaction), plus the server-side cursor [embedding_cursor], whose
      rows are those selected when it was declared;
    - every client call may raise: an environment decides, per call number
      and per statement, whether the database client raises, and what the
      provider answers to its n-th request;
    - everything observable (client calls in order, provider requests,
      printed lines) is collected in a log.

    What is assumed of the collaborators, and not decided by the scripts:
    a statement that raises changes nothing and leaves the session usable
    for the next statement; a [vector(d)] column refuses vectors of another
    length; [with psycopg2.connect(...)] commits on a normal exit and rolls
    back on an exception; building the provider client ([OpenAI(api_key)])
    contacts nothing and is not modelled. *)

From Stdlib Require Import QArith.
From stdpp Require Import gmap strings list sorting.

Open Scope string_scope.
Open Scope list_scope.

(** ** Data model *)

(** Embedding components are floats in the source; only their number and
    their order matter here, they are taken as rationals. *)
Definition vector := list Q.

Inductive value :=
| VInt (z : Z)
| VText (s : string)
| VVector (v : vector).

Inductive coltype :=
| TInteger
| TText
| TVector (dim : nat).

#[global] Instance Q_eq_dec : EqDecision Q.
Proof. solve_decision. Defined.
#[global] Instance value_eq_dec : EqDecision value.
Proof. solve_decision. Defined.
#[global] Instance coltype_eq_dec : EqDecision coltype.
Proof. solve_decision. Defined.

(** A row maps column names to values; a column without entry is NULL. *)
Abbreviation row := (gmap string value).

Record table := Table {
  tbl_columns : gmap string coltype;
  tbl_pkey : list string;
  tbl_rows : list row
}.

Abbreviation database := (gmap string table).

(** What [FETCH] hands back for [SELECT pk, text]: a pair of nullable values. *)
Abbreviation fetched := (option value * option value)%type.

Inductive exn :=
| PsycopgError (m : string)
| OtherException (m : string).

(** The client calls of both scripts. *)
Inductive dbcall :=
| Connect
| Commit
| Rollback
| CloseConnection
| TableExists (t : string)
| ColumnExists (t c : string)
| PrimaryKey (t : string)
| AddVectorColumn (t c : string) (dim : nat)
| DeclareCursor (t pk c emb : string)
| Fetch (n : nat)
| Update (t emb : string) (v : vector) (pk : string) (id : option value)
| CloseCursor
| NearestQuery (t c emb : string) (q : vector) (k : Z).

(** The printed lines, by the [print] that emits them; [MsgResult] stands
    for the two lines [Text] and [Similarity] of one result, [MsgRule] for
    the dashed line. *)
Inductive message :=
| MsgTableMissing (t : string)
| MsgColumnMissing (c t : string)
| MsgNoPrimaryKey (t : string)
| MsgRowError (pk : string) (id : option value) (e : exn)
| MsgBatch (n total : nat)
| MsgCompleted
| MsgDatabaseError (e : exn)
| MsgUnexpectedError (e : exn)
| MsgConnectionError (e : exn)
| MsgPhraseError (e : exn)
| MsgColumnsMissing (c emb t : string)
| MsgQueryError (e : exn)
| MsgTop (k : Z) (phrase : string)
| MsgRule
| MsgResult (rank : nat) (text : option value) (similarity : Q).

Inductive event :=
| EDb (c : dbcall)
| EEmbed (input : value)
| EPrint (m : message).

Record world := World {
  committed : gmap string table;
  session : gmap string table;
  held_cursor : option (list fetched);
  db_calls : nat;
  api_calls : nat
}.

(** The collaborators' behaviour during one run. *)
Record env := Env {
  db_fault : nat -> dbcall -> option exn;
  provider : nat -> value -> exn + vector;
  cosine_distance : vector -> vector -> Q
}.

(** ** A state, exception and log monad *)

Inductive outcome (A : Type) :=
| Ok (a : A)
| Raise (e : exn)
| Diverge.
Arguments Ok {A} a.
Arguments Raise {A} e.
Arguments Diverge {A}.

Record run (A : Type) := Run {
  res : outcome A;
  after : world;
  log : list event
}.
Arguments Run {A} res after log.
Arguments res {A} r.
Arguments after {A} r.
Arguments log {A} r.

Definition M (A : Type) : Type := world -> run A.

Definition ret {A} (a : A) : M A := fun w => Run (Ok a) w [].

(** [prepend l r]: the run [r] seen after the events [l]. *)
Definition prepend {A} (l : list event) (r : run A) : run A :=
  Run (res r) (after r) (l ++ log r).

Definition bind {A B} (m : M A) (f : A -> M B) : M B := fun w =>
  let r := m w in
  match res r with
  | Ok a => prepend (log r) (f a (after r))
  | Raise e => Run (Raise e) (after r) (log r)
  | Diverge => Run Diverge (after r) (log r)
  end.

Definition raise {A} (e : exn) : M A := fun w => Run (Raise e) w [].

(** [try: m except Exception as e: h e] *)
Definition try_except {A} (m : M A) (h : exn -> M A) : M A := fun w =>
  let r := m w in
  match res r with
  | Raise e => prepend (log r) (h e (after r))
  | _ => r
  end.

(** [try: m except psycopg2.Error as e: h e]: other exceptions pass. *)
Definition try_except_psycopg {A} (m : M A) (h : exn -> M A) : M A := fun w =>
  let r := m w in
  match res r with
  | Raise (PsycopgError s) => prepend (log r) (h (PsycopgError s) (after r))
  | _ => r
  end.

Notation "'do' x <- m ; k" := (bind m (fun x => k))
  (at level 10, x name, m at level 100, k at level 200).

Definition print (m : message) : M unit := fun w => Run (Ok tt) w [EPrint m].

(** ** The database collaborator *)

Definition set_session (s : gmap string table) (w : world) : world :=
  World (committed w) s (held_cursor w) (db_calls w) (api_calls w).
Definition set_cursor (c : option (list fetched)) (w : world) : world :=
  World (committed w) (session w) c (db_calls w) (api_calls w).

Definition next_call (w : world) : world :=
  World (committed w) (session w) (held_cursor w) (S (db_calls w)) (api_calls w).
Definition next_request (w : world) : world :=
  World (committed w) (session w) (held_cursor w) (db_calls w) (S (api_calls w)).

(** The session as a new connection finds it, and the state after a commit. *)
Definition reopen (w : world) : world :=
  World (committed w) (committed w) None (db_calls w) (api_calls w).
Definition publish (w : world) : world :=
  World (session w) (session w) (held_cursor w) (db_calls w) (api_calls w).

Definition has_column (T : table) (c : string) : bool :=
  match tbl_columns T !! c with
  | Some _ => true
  | None => false
  end.

Definition with_column (T : table) (c : string) (ty : coltype) : table :=
  Table (<[c := ty]> (tbl_columns T)) (tbl_pkey T) (tbl_rows T).

Definition with_rows (T : table) (rows : list row) : table :=
  Table (tbl_columns T) (tbl_pkey T) rows.

Definition db_has_column (db : gmap string table) (t c : string) : bool :=
  match db !! t with
  | Some T => has_column T c
  | None => false
  end.

(** [UPDATE t SET emb = v WHERE pk = id] on the rows of one table.  A NULL
    [id] compares equal to nothing. *)
Definition matches (pk : string) (id : option value) (r : row) : bool :=
  match id with
  | Some i => bool_decide (r !! pk = Some i)
  | None => false
  end.

Definition update_rows (emb : string) (v : vector) (pk : string)
    (id : option value) (rows : list row) : list row :=
  (fun r => if matches pk id r then <[emb := VVector v]> r else r) <$> rows.

(** [SELECT pk, c FROM t WHERE emb IS NULL] *)
Definition select_unembedded (pk c emb : string) (rows : list row) : list fetched :=
  (fun r => (r !! pk, r !! c)) <$> filter (fun r => r !! emb = None) rows.

Definition undefined_table := PsycopgError "undefined table".
Definition undefined_column := PsycopgError "undefined column".
Definition bad_dimension := PsycopgError "expected other dimensions".
Definition bad_cursor := PsycopgError "invalid cursor name".
Definition duplicate_cursor := PsycopgError "duplicate cursor".
Definition bad_limit := PsycopgError "LIMIT must not be negative".
Definition bad_operand := PsycopgError "operator does not exist".

Section Program.

Context (E : env).

(** One client call: it is numbered, logged, and raises when the environment
    says so or when the statement is not valid on the current state. *)
Definition db_call {A} (c : dbcall) (sem : world -> exn + (A * world)) : M A :=
  fun w =>
    let w1 := next_call w in
    match db_fault E (db_calls w) c with
    | Some e => Run (Raise e) w1 [EDb c]
    | None =>
        match sem w1 with
        | inl e => Run (Raise e) w1 [EDb c]
        | inr (a, w2) => Run (Ok a) w2 [EDb c]
        end
    end.

Definition connect : M unit :=
  db_call Connect (fun w => inr (tt, reopen w)).

Definition commit : M unit :=
  db_call Commit (fun w => inr (tt, publish w)).

Definition rollback : M unit :=
  db_call Rollback (fun w => inr (tt, set_session (committed w) w)).

Definition close_connection : M unit :=
  db_call CloseConnection (fun w => inr (tt, reopen w)).

(** [SELECT EXISTS (SELECT 1 FROM information_schema.tables WHERE ...)] *)
Definition table_exists (t : string) : M bool :=
  db_call (TableExists t) (fun w =>
    inr (match session w !! t with
         | Some _ => true
         | None => false
         end, w)).

(** [SELECT EXISTS (SELECT 1 FROM information_schema.columns WHERE ...)] *)
Definition column_exists (t c : string) : M bool :=
  db_call (ColumnExists t c) (fun w => inr (db_has_column (session w) t c, w)).

(** The primary-key columns of [t], one result row per column. *)
Definition primary_key (t : string) : M (list string) :=
  db_call (PrimaryKey t) (fun w =>
    inr (match session w !! t with
         | Some T => tbl_pkey T
         | None => []
         end, w)).

(** [ALTER TABLE t ADD COLUMN IF NOT EXISTS c vector(dim)] *)
Definition add_vector_column (t c : string) (dim : nat) : M unit :=
  db_call (AddVectorColumn t c dim) (fun w =>
    match session w !! t with
    | None => inl undefined_table
    | Some T =>
        if has_column T c then inr (tt, w)
        else inr (tt, set_session
                        (<[t := with_column T c (TVector dim)]> (session w)) w)
    end).

(** [DECLARE embedding_cursor CURSOR WITH HOLD FOR SELECT pk, c FROM t
    WHERE emb IS NULL] *)
Definition declare_cursor (t pk c emb : string) : M unit :=
  db_call (DeclareCursor t pk c emb) (fun w =>
    match session w !! t with
    | None => inl undefined_table
    | Some T =>
        if has_column T pk && has_column T c && has_column T emb then
          match held_cursor w with
          | Some _ => inl duplicate_cursor
          | None =>
              inr (tt, set_cursor (Some (select_unembedded pk c emb (tbl_rows T))) w)
          end
        else inl undefined_column
    end).

(** [FETCH n FROM embedding_cursor] followed by [fetchall()] *)
Definition fetch (n : nat) : M (list fetched) :=
  db_call (Fetch n) (fun w =>
    match held_cursor w with
    | None => inl bad_cursor
    | Some rows => inr (take n rows, set_cursor (Some (drop n rows)) w)
    end).

(** [UPDATE t SET emb = v WHERE pk = id]; the column is typed
    [vector(d)] and refuses a vector of another length. *)
Definition update (t emb : string) (v : vector) (pk : string) (id : option value)
    : M unit :=
  db_call (Update t emb v pk id) (fun w =>
    match session w !! t with
    | None => inl undefined_table
    | Some T =>
        if has_column T pk then
          match tbl_columns T !! emb with
          | Some (TVector d) =>
              if bool_decide (length v = d) then
                inr (tt, set_session
                           (<[t := with_rows T (update_rows emb v pk id (tbl_rows T))]>
                              (session w)) w)
              else inl bad_dimension
          | Some _ => inl bad_operand
          | None => inl undefined_column
          end
        else inl undefined_column
    end).

Definition close_cursor : M unit :=
  db_call CloseCursor (fun w =>
    match held_cursor w with
    | None => inl bad_cursor
    | Some _ => inr (tt, set_cursor None w)
    end).

(** [with psycopg2.connect(...) as conn: body]: the block commits when it is
    left normally (also by [return]) and rolls back when it is left by an
    exception, which goes on. *)
Definition with_connection {A} (body : M A) : M A :=
  do _ <- connect;
  do a <- try_except body (fun e => do _ <- rollback; raise e);
  do _ <- commit;
  ret a.

(** ** The embedding provider *)

(** [client.embeddings.create(input=[text], model=...)] and
    [response.data[0].embedding] *)
Definition embed (input : value) : M vector := fun w =>
  let w1 := next_request w in
  match provider E (api_calls w) input with
  | inl e => Run (Raise e) w1 [EEmbed input]
  | inr v => Run (Ok v) w1 [EEmbed input]
  end.

(** ** embedder.py *)

(** Body of [for row in rows] (lines 70-84). *)
Definition process_row (table_name embedding_column pk_column : string)
    (r : fetched) : M unit :=
  let '(id, text) := r in
  match text with
  | None => ret tt
  | Some text =>
      try_except
        (do embedding <- embed text;
         update table_name embedding_column embedding pk_column id)
        (fun e => print (MsgRowError pk_column id e))
  end.

Fixpoint process_rows (table_name embedding_column pk_column : string)
    (rows : list fetched) : M unit :=
  match rows with
  | [] => ret tt
  | r :: rest =>
      do _ <- process_row table_name embedding_column pk_column r;
      process_rows table_name embedding_column pk_column rest
  end.

(** [while True] (lines 65-87); [fuel] bounds the number of iterations of
    the model, the result is the final [total_processed]. *)
Fixpoint fetch_loop (fuel : nat) (table_name embedding_column pk_column : string)
    (batch_size total_processed : nat) : M nat :=
  match fuel with
  | O => fun w => Run Diverge w []
  | S fuel =>
      do rows <- fetch batch_size;
      match rows with
      | [] => ret total_processed
      | _ :: _ =>
          do _ <- process_rows table_name embedding_column pk_column rows;
          do _ <- commit;
          let total_processed := total_processed + length rows in
          do _ <- print (MsgBatch (length rows) total_processed);
          fetch_loop fuel table_name embedding_column pk_column
                     batch_size total_processed
      end
  end.

(** How the [with] block of [create_embeddings] is left. *)
Inductive flow := Returned | FellThrough.

(** Lines 55-90: the cursor is declared, drained by the loop and closed. *)
Definition stream_rows (fuel : nat)
    (table_name column_name embedding_column pk_column : string)
    (batch_size : nat) : M flow :=
  do _ <- declare_cursor table_name pk_column column_name embedding_column;
  do _ <- commit;
  do _ <- fetch_loop fuel table_name embedding_column pk_column batch_size 0;
  do _ <- close_cursor;
  do _ <- commit;
  ret FellThrough.

(** Lines 23-90, the body of [with psycopg2.connect(...) as conn]. *)
Definition backfill (fuel : nat) (table_name column_name : string)
    (batch_size vector_dim : nat) : M flow :=
  do found <- table_exists table_name;
  if negb found then
    do _ <- print (MsgTableMissing table_name); ret Returned
  else
  do found <- column_exists table_name column_name;
  if negb found then
    do _ <- print (MsgColumnMissing column_name table_name); ret Returned
  else
  do pk_columns <- primary_key table_name;
  match pk_columns with
  | [] => do _ <- print (MsgNoPrimaryKey table_name); ret Returned
  | pk_column :: _ =>
      let embedding_column := column_name +:+ "_embeddings" in
      do _ <- add_vector_column table_name embedding_column vector_dim;
      do _ <- commit;
      stream_rows fuel table_name column_name embedding_column pk_column
        batch_size
  end.

(** Lines 21-92, the guarded block. *)
Definition guarded_backfill (fuel : nat) (table_name column_name : string)
    (batch_size vector_dim : nat) : M unit :=
  do fl <- with_connection
             (backfill fuel table_name column_name batch_size vector_dim);
  match fl with
  | Returned => ret tt
  | FellThrough => print MsgCompleted
  end.

(** Lines 94-97, the two handlers. *)
Definition report (e : exn) : message :=
  match e with
  | PsycopgError _ => MsgDatabaseError e
  | OtherException _ => MsgUnexpectedError e
  end.

(** [create_embeddings]; [db_params] and [api_key] only reach the
    collaborators, whose behaviour is [E]. *)
Definition create_embeddings (fuel : nat) (table_name column_name : string)
    (batch_size vector_dim : nat) : M unit :=
  try_except
    (guarded_backfill fuel table_name column_name batch_size vector_dim)
    (fun e => print (report e)).

(** ** embedder_test.py *)

(** The rows the ranking query looks at: those whose embedding is not NULL,
    each with its source text and its distance to the query vector.  The
    operator [<=>] is defined between vectors of one dimension. *)
Definition scored := (option value * Q)%type.

Definition score_row (c emb : string) (q : vector) (r : row) : option scored :=
  match r !! emb with
  | Some (VVector v) =>
      if bool_decide (length v = length q)
      then Some (r !! c, cosine_distance E v q)
      else None
  | _ => None
  end.

Definition closer (a b : scored) : Prop := Qle_bool a.2 b.2.

(** [SELECT c, 1 - (emb <=> q) FROM t WHERE emb IS NOT NULL
    ORDER BY emb <=> q LIMIT k] *)
Definition nearest (c emb : string) (q : vector) (k : nat) (rows : list row)
    : option (list scored) :=
  candidates ← mapM (score_row c emb q) (filter (fun r => r !! emb ≠ None) rows);
  Some ((fun s => (s.1, 1 - s.2)%Q) <$> take k (merge_sort closer candidates)).

Definition nearest_query (t c emb : string) (q : vector) (k : Z)
    : M (list scored) :=
  db_call (NearestQuery t c emb q k) (fun w =>
    match session w !! t with
    | None => inl undefined_table
    | Some T =>
        if has_column T c && has_column T emb then
          if bool_decide (k < 0)%Z then inl bad_limit
          else match nearest c emb q (Z.to_nat k) (tbl_rows T) with
               | Some results => inr (results, w)
               | None => inl bad_operand
               end
        else inl undefined_column
    end).

(** [for i, (text, similarity) in enumerate(results, 1)] *)
Fixpoint print_results (i : nat) (results : list scored) : M unit :=
  match results with
  | [] => ret tt
  | (text, similarity) :: rest =>
      do _ <- print (MsgResult i text similarity);
      do _ <- print MsgRule;
      print_results (S i) rest
  end.

(** [semantic_search]; the value is the fetched result list when the run
    reaches the display, [None] on every early [return]. *)
Definition semantic_search (table_name column_name search_phrase : string)
    (limit : Z) : M (option (list scored)) :=
  do connected <- try_except_psycopg
                    (do _ <- connect; ret true)
                    (fun e => do _ <- print (MsgConnectionError e); ret false);
  if negb connected then ret None else
  do embedded <- try_except
                   (do v <- embed (VText search_phrase); ret (Some v))
                   (fun e => do _ <- print (MsgPhraseError e);
                             do _ <- close_connection;
                             ret None);
  match embedded with
  | None => ret None
  | Some search_embedding =>
      let embedding_column := column_name +:+ "_embeddings" in
      do found <- table_exists table_name;
      if negb found then
        do _ <- print (MsgTableMissing table_name);
        do _ <- close_connection;
        ret None
      else
      do text_column_exists <- column_exists table_name column_name;
      do embedding_column_exists <- column_exists table_name embedding_column;
      if negb text_column_exists || negb embedding_column_exists then
        do _ <- print (MsgColumnsMissing column_name embedding_column table_name);
        do _ <- close_connection;
        ret None
      else
      do fetched <- try_except_psycopg
                      (do results <- nearest_query table_name column_name
                                       embedding_column search_embedding limit;
                       ret (Some results))
                      (fun e => do _ <- print (MsgQueryError e);
                                do _ <- close_connection;
                                ret None);
      match fetched with
      | None => ret None
      | Some results =>
          do _ <- print (MsgTop limit search_phrase);
          do _ <- print MsgRule;
          do _ <- print_results 1 results;
          do _ <- close_connection;
          ret (Some results)
      end
  end.

End Program.

(** ** Vocabulary of the statements *)

(** The database client never raises on its own account. *)
Definition no_db_faults (E : env) : Prop :=
  forall n c, db_fault E n c = None.

Definition is_update (c : dbcall) : bool :=
  match c with
  | Update _ _ _ _ _ => true
  | _ => false
  end.

(** The database client raises at most on point updates. *)
Definition only_update_faults (E : env) : Prop :=
  forall n c, is_update c = false -> db_fault E n c = None.

(** Number of rows of table [t] in a database. *)
Definition row_count (db : gmap string table) (t : string) : nat :=
  match db !! t with
  | Some T => length (tbl_rows T)
  | None => 0
  end.

(** [m] keeps the property [I] of the world, however it ends. *)
Definition preserves {A} (I : world -> Prop) (m : M A) : Prop :=
  forall w, I w -> I (after (m w)).


(** An invariant [P] of the database and [C] of the server-side cursor,
    carried by the committed state and by the session. *)
Definition world_inv (P : gmap string table -> Prop)
    (C : option (list fetched) -> Prop) (w : world) : Prop :=
  P (committed w) /\ P (session w) /\ C (held_cursor w).

(** The fuel exceeds the number of rows of the table, hence the length of
    any cursor declared on it. *)
Definition fits (fuel : nat) (t : string) (db : gmap string table) : Prop :=
  row_count db t < fuel.

(** The fuel exceeds the number of rows the cursor still holds. *)
Definition cursor_fits (fuel : nat) (cur : option (list fetched)) : Prop :=
  match cur with
  | Some rows => length rows < fuel
  | None => True
  end.



(** Every row of [t] keyed [id] holds a vector in the embedding column. *)
Definition embedded_in (db : gmap string table) (t emb pk : string) (id : value)
    : Prop :=
  exists T, db !! t = Some T /\
    forall r, r ∈ tbl_rows T -> r !! pk = Some id ->
      exists v, r !! emb = Some (VVector v).

(** The progress lines a run over [rows] must print: one per non-empty
    chunk, with the size of the chunk and the running total. *)
Fixpoint progress (fuel batch_size total : nat) (rows : list fetched)
    : list (nat * nat) :=
  match fuel with
  | O => []
  | S fuel =>
      match take batch_size rows with
      | [] => []
      | (_ :: _) as chunk =>
          let total := total + length chunk in
          (length chunk, total) :: progress fuel batch_size total (drop batch_size rows)
      end
  end.

(** The chunk size and the total of a progress line. *)
Definition batch_report (e : event) : option (nat * nat) :=
  match e with
  | EPrint (MsgBatch n total) => Some (n, total)
  | _ => None
  end.

(** The progress lines of a log, in order. *)
Definition batch_reports (l : list event) : list (nat * nat) :=
  omap batch_report l.

(** What the cursor still holds when the loop stops: nothing, unless the
    batch size is 0 and the first [FETCH 0] already came back empty. *)
Definition left_in_cursor (batch_size : nat) (rows : list fetched) : list fetched :=
  match batch_size with
  | O => rows
  | S _ => []
  end.

(** The events a row may cause. *)
Definition row_event (e : event) : Prop :=
  match e with
  | EEmbed _ | EDb (Update _ _ _ _ _) | EPrint (MsgRowError _ _ _) => True
  | _ => False
  end.







(** The lines printed for the results, ranks counted from [i]. *)
Fixpoint result_lines (i : nat) (results : list scored) : list event :=
  match results with
  | [] => []
  | (text, similarity) :: rest =>
      EPrint (MsgResult i text similarity) :: EPrint MsgRule
      :: result_lines (S i) rest
  end.

(** The embedding column of every row of [t], in table order. *)
Definition embeddings_of (db : gmap string table) (t emb : string)
    : list (option value) :=
  match db !! t with
  | Some T => (fun r : row => r !! emb) <$> tbl_rows T
  | None => []
  end.

(** Every event of a run of [m] satisfies [Q]. *)
Definition emits {A} (Q : event -> Prop) (m : M A) : Prop :=
  forall w, Forall Q (log (m w)).

(** The events of a read-only session: connecting, closing, catalog lookups,
    the ranking query, provider requests and printed lines. *)
Definition reads_only (e : event) : Prop :=
  match e with
  | EDb (Commit | Rollback | AddVectorColumn _ _ _ | DeclareCursor _ _ _ _
        | Fetch _ | Update _ _ _ _ _ | CloseCursor) => False
  | _ => True
  end.

(** The ranking query, among the client calls. *)
Definition is_ranking (c : dbcall) : bool :=
  match c with NearestQuery _ _ _ _ _ => true | _ => false end.

(** Only the ranking query can fail. *)
Definition only_ranking_faults (E : env) : Prop :=
  forall n c, is_ranking c = false -> db_fault E n c = None.



(** A row after the backfill, against the row before: every other column
    holds what it held, and an embedding that was there is still there. *)
Definition row_kept (emb : string) (r0 r : row) : Prop :=
  (forall c, c <> emb -> r !! c = r0 !! c) /\
  (is_Some (r0 !! emb) -> is_Some (r !! emb)).

(** A table after the backfill, against the table before: the key and the
    declared columns are kept, the only column that may be new is the
    embedding column, typed [vector(d)], and the rows are the same rows in
    the same order. *)
Definition table_kept (emb : string) (d : nat) (T0 T : table) : Prop :=
  tbl_pkey T = tbl_pkey T0 /\
  (forall c ty, tbl_columns T0 !! c = Some ty -> tbl_columns T !! c = Some ty) /\
  (forall c ty, tbl_columns T !! c = Some ty ->
     tbl_columns T0 !! c = Some ty \/ (c = emb /\ ty = TVector d)) /\
  Forall2 (row_kept emb) (tbl_rows T0) (tbl_rows T).

(** A database after the backfill of [t], against the database before. *)
Definition database_kept (t emb : string) (d : nat)
    (db0 db : gmap string table) : Prop :=
  (forall t', t' <> t -> db !! t' = db0 !! t') /\
  match db0 !! t, db !! t with
  | Some T0, Some T => table_kept emb d T0 T
  | None, None => True
  | _, _ => False
  end.

(** The inputs sent to the provider, in order. *)
Definition requests (l : list event) : list value :=
  omap (fun e => match e with EEmbed x => Some x | _ => None end) l.

(** The table as the loop finds it: the embedding column is there. *)
Definition prepared (T : table) (emb : string) (d : nat) : table :=
  if has_column T emb then T else with_column T emb (TVector d).

(** Two worlds that a run without database faults cannot tell apart while
    it processes rows. *)
Definition same_session (w1 w2 : world) : Prop :=
  session w1 = session w2 /\ api_calls w1 = api_calls w2.

(** The table is there, with the key column and a [vector(d)] embedding
    column. *)
Definition ready (t emb pk : string) (d : nat) (db : gmap string table)
    : Prop :=
  exists T, db !! t = Some T /\ has_column T pk = true /\
            tbl_columns T !! emb = Some (TVector d).

(** ** Sample collaborators and databases *)

Definition steady_provider : nat -> value -> exn + vector :=
  fun _ _ => inr [1%Q; 0%Q].

Definition flat_distance : vector -> vector -> Q := fun _ _ => 0%Q.

(** Nothing ever fails; every text embeds to a vector of dimension 2. *)
Definition E_steady : env := Env (fun _ _ => None) steady_provider flat_distance.

Definition fresh (db : gmap string table) : world := World db db None 0 0.

Definition doc (i : Z) (body : option string) : row :=
  match body with
  | Some s => <["body" := VText s]> {[ "id" := VInt i ]}
  | None => {[ "id" := VInt i ]}
  end.

Definition docs_columns : gmap string coltype :=
  {[ "id" := TInteger; "body" := TText ]}.

(** Three documents, the second without text. *)
Definition docs : table :=
  Table docs_columns ["id"] [doc 1 (Some "a"); doc 2 None; doc 3 (Some "c")].

Definition db_docs : gmap string table := {[ "docs" := docs ]}.




(** A session on [docs] whose cursor holds a row with a text and a row
    without. *)
Definition mid_run : world :=
  World db_docs db_docs
        (Some [(Some (VInt 1), Some (VText "a")); (Some (VInt 2), None)]) 0 0.

(** A stand-in for [<=>]: the distance of a stored vector is its first
    component. *)
Definition first_component : vector -> vector -> Q :=
  fun v _ => hd 0%Q v.

Definition E_query : env :=
  Env (fun _ _ => None) (fun _ _ => inr [0%Q]) first_component.

Definition note (i : Z) (body : string) (embedding : option vector) : row :=
  let r := <["body" := VText body]> {[ "id" := VInt i ]} in
  match embedding with
  | Some v => <["body_embeddings" := VVector v]> r
  | None => r
  end.

(** Three notes at distances 0.9, 0.1 and 0.5, and one not yet embedded. *)
Definition notes : table :=
  Table {[ "id" := TInteger; "body" := TText; "body_embeddings" := TVector 1 ]}
        ["id"]
        [note 1 "far" (Some [9 # 10]); note 2 "near" (Some [1 # 10]);
         note 3 "mid" (Some [5 # 10]); note 4 "new" None].

Definition db_notes : gmap string table := {[ "notes" := notes ]}.

(** The provider fails on its second request and on no other. *)
Definition E_flaky : env :=
  Env (fun _ _ => None)
      (fun n _ => if Nat.eqb n 1 then inl (OtherException "rate limit")
                  else inr [1%Q; 0%Q])
      flat_distance.

Definition trio : table :=
  Table docs_columns ["id"]
        [doc 1 (Some "a"); doc 2 (Some "b"); doc 3 (Some "c")].

Definition db_trio : gmap string table := {[ "trio" := trio ]}.

(** The provider always fails. *)
Definition E_mute : env :=
  Env (fun _ _ => None) (fun _ _ => inl (OtherException "unreachable"))
      flat_distance.

(** A database client that has lost its server once connected: the catalog
    cannot be read. *)
Definition E_catalog_down : env :=
  Env (fun _ c => match c with
                  | TableExists _ => Some (PsycopgError "server closed the connection")
                  | _ => None
                  end)
      steady_provider flat_distance.

(** The ranking query times out. *)
Definition E_timeout : env :=
  Env (fun _ c => if is_ranking c then Some (PsycopgError "statement timeout")
                  else None)
      (fun _ _ => inr [0%Q]) first_component.

(** No server is listening. *)
Definition E_offline : env :=
  Env (fun _ c => match c with
                  | Connect => Some (PsycopgError "connection refused")
                  | _ => None
                  end)
      steady_provider flat_distance.

(** ** Facts about the monad *)

Lemma bind_ok {A B} (m : M A) (f : A -> M B) w a w' l :
  m w = Run (Ok a) w' l -> bind m f w = prepend l (f a w').
Proof. unfold bind. by intros ->. Qed.

Lemma bind_raise {A B} (m : M A) (f : A -> M B) w e w' l :
  m w = Run (Raise e) w' l -> bind m f w = Run (Raise e) w' l.
Proof. unfold bind. by intros ->. Qed.

Lemma try_except_ok {A} (m : M A) h w a w' l :
  m w = Run (Ok a) w' l -> try_except m h w = Run (Ok a) w' l.
Proof. unfold try_except. by intros ->. Qed.

Lemma try_except_raise {A} (m : M A) h w e w' l :
  m w = Run (Raise e) w' l -> try_except m h w = prepend l (h e w').
Proof. unfold try_except. by intros ->. Qed.

Lemma try_except_psycopg_ok {A} (m : M A) h w a w' l :
  m w = Run (Ok a) w' l -> try_except_psycopg m h w = Run (Ok a) w' l.
Proof. unfold try_except_psycopg. by intros ->. Qed.

Lemma bind_then {A B} (m : M A) (f : A -> M B) w a w' l R :
  m w = Run (Ok a) w' l -> prepend l (f a w') = R -> bind m f w = R.
Proof. intros Hm <-. by apply bind_ok. Qed.

Lemma prepend_bind_then {A B} l0 (m : M A) (f : A -> M B) w a w' l R :
  m w = Run (Ok a) w' l ->
  prepend (l0 ++ l) (f a w') = R ->
  prepend l0 (bind m f w) = R.
Proof.
  intros Hm <-. rewrite (bind_ok _ _ _ _ _ _ Hm). unfold prepend. cbn.
  by rewrite app_assoc.
Qed.

Lemma log_bind {A B} (m : M A) (f : A -> M B) w :
  log (bind m f w) =
  log (m w) ++ match res (m w) with
               | Ok a => log (f a (after (m w)))
               | _ => []
               end.
Proof. unfold bind. destruct (res (m w)); cbn; by rewrite ?app_nil_r. Qed.

Lemma log_try_except {A} (m : M A) (h : exn -> M A) w :
  log (try_except m h w) =
  log (m w) ++ match res (m w) with
               | Raise e => log (h e (after (m w)))
               | _ => []
               end.
Proof. unfold try_except. destruct (res (m w)); cbn; by rewrite ?app_nil_r. Qed.

Section Calls.

Context (E : env).

Lemma db_call_run {A} c (sem : world -> exn + (A * world)) w :
  db_fault E (db_calls w) c = None ->
  db_call E c sem w =
  match sem (next_call w) with
  | inl e => Run (Raise e) (next_call w) [EDb c]
  | inr (a, w2) => Run (Ok a) w2 [EDb c]
  end.
Proof. unfold db_call. intros ->. by destruct (sem _) as [?|[??]]. Qed.

Lemma embed_ok x w v :
  provider E (api_calls w) x = inr v ->
  embed E x w = Run (Ok v) (next_request w) [EEmbed x].
Proof. unfold embed. by intros ->. Qed.

Lemma embed_raise x w e :
  provider E (api_calls w) x = inl e ->
  embed E x w = Run (Raise e) (next_request w) [EEmbed x].
Proof. unfold embed. by intros ->. Qed.

Lemma connect_cases w :
  (exists e, connect E w = Run (Raise e) (next_call w) [EDb Connect]) \/
  connect E w = Run (Ok tt) (reopen (next_call w)) [EDb Connect].
Proof.
  unfold connect, db_call. destruct (db_fault E (db_calls w) Connect); eauto.
Qed.

Lemma log_db_call {A} c (sem : world -> exn + (A * world)) w :
  log (db_call E c sem w) = [EDb c].
Proof.
  unfold db_call. destruct (db_fault E (db_calls w) c); [done|].
  by destruct (sem _) as [?|[??]].
Qed.

End Calls.

(** One fault-free client call, evaluated on the current world. *)
Ltac call H :=
  first [ reflexivity | idtac ];
  unfold connect, commit, rollback, close_connection, table_exists,
    column_exists, primary_key, add_vector_column, declare_cursor, fetch,
    update, close_cursor, nearest_query;
  rewrite db_call_run by (apply H; reflexivity); cbn; reflexivity.

(** Exposes the components of the current world. *)
Ltac world :=
  cbn [committed session held_cursor db_calls api_calls next_call
       next_request set_session set_cursor reopen publish after res log
       app negb andb orb].

(** One step of a run: the first call of a [bind] returns. *)
Ltac into :=
  world;
  lazymatch goal with
  | |- bind _ _ _ = _ => eapply bind_then
  | |- prepend _ (bind _ _ _) = _ => eapply prepend_bind_then
  end.
Ltac step H := into; [call H | world].

(** Closes an evaluation once every call has been run. *)
Ltac ran := cbn [prepend res after log app ret print]; reflexivity.

(** ** Query mode: preflight *)

Lemma missing_table_run E table_name column_name search_phrase limit w :
  no_db_faults E ->
  committed w !! table_name = None ->
  exists w',
    semantic_search E table_name column_name search_phrase limit w =
    Run (Ok None) w'
      match provider E (api_calls w) (VText search_phrase) with
      | inr _ => [EDb Connect; EEmbed (VText search_phrase);
                  EDb (TableExists table_name);
                  EPrint (MsgTableMissing table_name); EDb CloseConnection]
      | inl e => [EDb Connect; EEmbed (VText search_phrase);
                  EPrint (MsgPhraseError e); EDb CloseConnection]
      end.
Proof.
  intros Hnf Ht. unfold semantic_search.
  destruct (provider E (api_calls w) (VText search_phrase)) as [e|v] eqn:Hp;
    eexists;
    (into; [apply try_except_psycopg_ok; step Hnf; ran|]).
  - into.
    { erewrite try_except_raise
        by (eapply bind_raise; apply embed_raise; exact Hp).
      step Hnf. step Hnf. ran. }
    ran.
  - into.
    { eapply try_except_ok. into; [apply embed_ok; exact Hp|]. ran. }
    step Hnf. rewrite Ht. step Hnf. step Hnf. ran.
Qed.

(** C1 (as amended).  When the table named in a query does not exist and the
    database client does not fail, the run returns no results and issues no
    ranking query; the provider is asked exactly once, right after the
    connection and before the table is looked up.  When that request fails
    the table is not even looked up. *)
Theorem missing_table_embeds_first E table_name column_name search_phrase limit w :
  no_db_faults E ->
  committed w !! table_name = None ->
  let r := semantic_search E table_name column_name search_phrase limit w in
  res r = Ok None /\
  log r =
    match provider E (api_calls w) (VText search_phrase) with
    | inr _ => [EDb Connect; EEmbed (VText search_phrase);
                EDb (TableExists table_name);
                EPrint (MsgTableMissing table_name); EDb CloseConnection]
    | inl e => [EDb Connect; EEmbed (VText search_phrase);
                EPrint (MsgPhraseError e); EDb CloseConnection]
    end.
Proof.
  intros Hnf Ht.
  destruct (missing_table_run E table_name column_name search_phrase limit w
              Hnf Ht) as [w' ->].
  done.
Qed.

Lemma missing_table_embeds_first_witness :
  no_db_faults E_steady /\
  committed (fresh db_docs) !! "papers" = None /\
  res (semantic_search E_steady "papers" "body" "hello" 5 (fresh db_docs)) = Ok None.
Proof.
  assert (Hnf : no_db_faults E_steady) by (intros n c; reflexivity).
  assert (Ht : committed (fresh db_docs) !! "papers" = None)
    by (vm_compute; reflexivity).
  split; [exact Hnf|]. split; [exact Ht|].
  exact (proj1 (missing_table_embeds_first E_steady "papers" "body" "hello" 5
                  (fresh db_docs) Hnf Ht)).
Defined.

(** C1 (as stated) fails: on a database without the table [papers], the
    provider is asked for the phrase before the catalog is consulted. *)
Lemma provider_asked_before_table_check :
  committed (fresh db_docs) !! "papers" = None /\
  log (semantic_search E_steady "papers" "body" "hello" 5 (fresh db_docs)) =
    [EDb Connect; EEmbed (VText "hello"); EDb (TableExists "papers");
     EPrint (MsgTableMissing "papers"); EDb CloseConnection].
Proof. split; vm_compute; reflexivity. Qed.

(** ** Backfill: preflight *)

Section Preflight.

Context (E : env) (fuel : nat) (table_name column_name : string)
        (batch_size vector_dim : nat) (w : world).
Hypothesis Hnf : only_update_faults E.

Let body := backfill E fuel table_name column_name batch_size vector_dim.
Let r := create_embeddings E fuel table_name column_name batch_size vector_dim w.


Lemma create_embeddings_fell_through w' l :
  body (reopen (next_call w)) = Run (Ok FellThrough) w' l ->
  r = Run (Ok tt) (publish (next_call w'))
        (EDb Connect :: l ++ [EDb Commit; EPrint MsgCompleted]).
Proof.
  intros Hb. unfold r, create_embeddings, guarded_backfill.
  apply try_except_ok. eapply bind_then.
  - unfold with_connection. step Hnf.
    into; [apply try_except_ok; exact Hb|]. step Hnf. ran.
  - unfold prepend, print. cbn [res after log app]. by rewrite <- !app_assoc.
Qed.





End Preflight.


Lemma E_steady_no_db_faults : no_db_faults E_steady.
Proof. intros n c. reflexivity. Defined.



(** ** Invariants of a run, whatever the collaborators do *)

Section Rules.

Context (E : env) (I : world -> Prop).

Lemma preserves_ret {A} (a : A) : preserves I (ret a).
Proof. by intros w. Qed.

Lemma preserves_print m : preserves I (print m).
Proof. by intros w. Qed.

Lemma preserves_raise {A} e : preserves I (@raise A e).
Proof. by intros w. Qed.

Lemma preserves_bind {A B} (m : M A) (f : A -> M B) :
  preserves I m -> (forall a, preserves I (f a)) -> preserves I (bind m f).
Proof.
  intros Hm Hf w Hw. specialize (Hm w Hw). unfold bind.
  destruct (res (m w)) as [a| |]; cbn; [by apply Hf|done..].
Qed.

Lemma preserves_try_except {A} (m : M A) h :
  preserves I m -> (forall e, preserves I (h e)) -> preserves I (try_except m h).
Proof.
  intros Hm Hh w Hw. specialize (Hm w Hw). unfold try_except.
  destruct (res (m w)) as [a|e|]; cbn; [done|by apply Hh|done].
Qed.

Lemma preserves_db_call {A} c (sem : world -> exn + (A * world)) :
  (forall w, I w -> I (next_call w)) ->
  (forall w a w2, I w -> sem w = inr (a, w2) -> I w2) ->
  preserves I (db_call E c sem).
Proof.
  intros Hn Hs w Hw. unfold db_call.
  destruct (db_fault E (db_calls w) c); cbn; [by apply Hn|].
  destruct (sem (next_call w)) as [e|[a w2]] eqn:Hsem; cbn; [by apply Hn|].
  eapply Hs; [|done]. by apply Hn.
Qed.

Lemma preserves_embed x :
  (forall w, I w -> I (next_request w)) -> preserves I (embed E x).
Proof.
  intros Hn w Hw. unfold embed.
  destruct (provider E (api_calls w) x); cbn; by apply Hn.
Qed.







End Rules.

(** What a batch of rows preserves: any property of the world that does not
    depend on the call counters and that a successful point update keeps. *)
Section RowInvariant.

Context (E : env) (I : world -> Prop) (table_name embedding_column : string).

Hypothesis I_call : forall w, I w -> I (next_call w).
Hypothesis I_request : forall w, I w -> I (next_request w).
Hypothesis I_update : forall w T v pk id,
  I w -> session w !! table_name = Some T ->
  tbl_columns T !! embedding_column = Some (TVector (length v)) ->
  I (set_session
       (<[table_name := with_rows T (update_rows embedding_column v pk id (tbl_rows T))]>
          (session w)) w).

Lemma row_update v pk id :
  preserves I (update E table_name embedding_column v pk id).
Proof.
  apply preserves_db_call; [exact I_call|]. intros w [] w2 Hw.
  destruct (session w !! table_name) as [T|] eqn:Ht; [|done].
  destruct (has_column T pk); [|done].
  destruct (tbl_columns T !! embedding_column) as [[| |d]|] eqn:Hty; try done.
  case_bool_decide as Hlen; [|done]. intros [= <-].
  apply I_update; [done..|]. by rewrite Hlen.
Qed.

Lemma row_process_row pk r :
  preserves I (process_row E table_name embedding_column pk r).
Proof.
  destruct r as [id [text|]]; cbn; [|apply preserves_ret].
  apply preserves_try_except; [|intros e; apply preserves_print].
  apply preserves_bind; [by apply preserves_embed|].
  intros v. apply row_update.
Qed.

Lemma row_process_rows pk rows :
  preserves I (process_rows E table_name embedding_column pk rows).
Proof.
  induction rows as [|r rows IH]; cbn; [apply preserves_ret|].
  apply preserves_bind; [apply row_process_row|done].
Qed.

End RowInvariant.

Section WorldInvariant.

Context (E : env) (P : gmap string table -> Prop)
        (C : option (list fetched) -> Prop)
        (table_name embedding_column : string) (vector_dim : nat).

Hypothesis C_none : C None.
Hypothesis C_drop : forall rows n, C (Some rows) -> C (Some (drop n rows)).
Hypothesis C_declare : forall db T pk c,
  P db -> db !! table_name = Some T ->
  C (Some (select_unembedded pk c embedding_column (tbl_rows T))).
Hypothesis P_alter : forall db T,
  P db -> db !! table_name = Some T ->
  has_column T embedding_column = false ->
  P (<[table_name := with_column T embedding_column (TVector vector_dim)]> db).
Hypothesis P_update : forall db T v pk id,
  P db -> db !! table_name = Some T ->
  tbl_columns T !! embedding_column = Some (TVector (length v)) ->
  P (<[table_name := with_rows T (update_rows embedding_column v pk id (tbl_rows T))]> db).

Let I := world_inv P C.

Lemma inv_next_call w : I w -> I (next_call w).
Proof. done. Qed.

Lemma inv_next_request w : I w -> I (next_request w).
Proof. done. Qed.

Lemma inv_reopen w : P (committed w) -> I (reopen w).
Proof. intros Hc. by repeat split. Qed.

Lemma inv_publish w : I w -> I (publish w).
Proof. intros (Hc & Hs & Hh). by repeat split. Qed.

Ltac by_call :=
  apply preserves_db_call; [exact inv_next_call|].

Lemma preserves_commit : preserves I (commit E).
Proof. by_call. intros w [] w2 Hw [= <-]. by apply inv_publish. Qed.

Lemma preserves_rollback : preserves I (rollback E).
Proof.
  by_call. intros w [] w2 (Hc & Hs & Hh) [= <-]. by repeat split.
Qed.

Lemma preserves_table_exists t : preserves I (table_exists E t).
Proof. by_call. by intros w a w2 Hw [= _ <-]. Qed.

Lemma preserves_column_exists t c : preserves I (column_exists E t c).
Proof. by_call. by intros w a w2 Hw [= _ <-]. Qed.

Lemma preserves_primary_key t : preserves I (primary_key E t).
Proof. by_call. by intros w a w2 Hw [= _ <-]. Qed.

Lemma preserves_add_vector_column :
  preserves I (add_vector_column E table_name embedding_column vector_dim).
Proof.
  by_call. intros w [] w2 (Hc & Hs & Hh).
  destruct (session w !! table_name) as [T|] eqn:Ht; [|done].
  destruct (has_column T embedding_column) eqn:Hcol; intros [= <-].
  - done.
  - repeat split; [done| |done]. cbn. by apply P_alter.
Qed.

Lemma preserves_declare_cursor pk c :
  preserves I (declare_cursor E table_name pk c embedding_column).
Proof.
  by_call. intros w [] w2 (Hc & Hs & Hh).
  destruct (session w !! table_name) as [T|] eqn:Ht; [|done].
  destruct (_ && _); [|done].
  destruct (held_cursor w); [done|]. intros [= <-].
  repeat split; [done..|]. cbn. by eapply C_declare.
Qed.

Lemma preserves_fetch n : preserves I (fetch E n).
Proof.
  by_call. intros w a w2 (Hc & Hs & Hh).
  destruct (held_cursor w) as [rows|] eqn:Hcur; [|done]. intros [= _ <-].
  repeat split; [done..|]. cbn. by apply C_drop.
Qed.

Lemma preserves_close_cursor : preserves I (close_cursor E).
Proof.
  by_call. intros w [] w2 (Hc & Hs & Hh).
  destruct (held_cursor w); [|done]. intros [= <-]. by repeat split.
Qed.

Lemma preserves_process_rows pk rows :
  preserves I (process_rows E table_name embedding_column pk rows).
Proof.
  apply row_process_rows; [done..|].
  intros w T v pk' id (Hc & Hs & Hh) Ht Hty.
  repeat split; [done| |done]. cbn. by apply P_update.
Qed.

Lemma preserves_fetch_loop fuel pk batch_size total_processed :
  preserves I (fetch_loop E fuel table_name embedding_column pk
                 batch_size total_processed).
Proof.
  revert total_processed.
  induction fuel as [|fuel IH]; intros total_processed; cbn; [by intros w|].
  apply preserves_bind; [apply preserves_fetch|]. intros [|r rows].
  - apply preserves_ret.
  - apply preserves_bind; [apply preserves_process_rows|]. intros _.
    apply preserves_bind; [apply preserves_commit|]. intros _.
    apply preserves_bind; [apply preserves_print|]. intros _. apply IH.
Qed.

Lemma preserves_backfill fuel column_name batch_size :
  embedding_column = column_name +:+ "_embeddings" ->
  preserves I (backfill E fuel table_name column_name batch_size vector_dim).
Proof.
  intros Hemb. unfold backfill. rewrite <- Hemb.
  apply preserves_bind; [apply preserves_table_exists|]. intros found.
  destruct (negb found).
  { apply preserves_bind; [apply preserves_print|]. intros _. apply preserves_ret. }
  apply preserves_bind; [apply preserves_column_exists|]. clear found. intros found.
  destruct (negb found).
  { apply preserves_bind; [apply preserves_print|]. intros _. apply preserves_ret. }
  apply preserves_bind; [apply preserves_primary_key|]. intros [|pk_column pks].
  { apply preserves_bind; [apply preserves_print|]. intros _. apply preserves_ret. }
  cbv zeta. unfold stream_rows.
  apply preserves_bind; [apply preserves_add_vector_column|]. intros _.
  apply preserves_bind; [apply preserves_commit|]. intros _.
  apply preserves_bind; [apply preserves_declare_cursor|]. intros _.
  apply preserves_bind; [apply preserves_commit|]. intros _.
  apply preserves_bind; [apply preserves_fetch_loop|]. intros _.
  apply preserves_bind; [apply preserves_close_cursor|]. intros _.
  apply preserves_bind; [apply preserves_commit|]. intros _.
  apply preserves_ret.
Qed.

(** From the connection on, the invariant of the committed state is the
    invariant of the world. *)
Lemma with_connection_committed {A} (body : M A) w :
  preserves I body ->
  P (committed w) ->
  P (committed (after (with_connection E body w))).
Proof.
  intros Hbody Hw. unfold with_connection.
  destruct (connect_cases E w) as [[e Hc]|Hc].
  { by rewrite (bind_raise _ _ _ _ _ _ Hc). }
  rewrite (bind_ok _ _ _ _ _ _ Hc). unfold prepend. cbn [after].
  assert (Hin : I (reopen (next_call w))) by by apply inv_reopen.
  revert Hin. generalize (reopen (next_call w)). intros w1 Hin.
  assert (Hrest : preserves I
            (do a <- try_except body (fun e => do _ <- rollback E; raise e);
             do _ <- commit E; ret a)).
  { apply preserves_bind.
    - apply preserves_try_except; [done|]. intros e.
      apply preserves_bind; [apply preserves_rollback|].
      intros _. apply preserves_raise.
    - intros a. apply preserves_bind; [apply preserves_commit|].
      intros _. apply preserves_ret. }
  apply (Hrest w1 Hin).
Qed.

Lemma create_embeddings_committed fuel column_name batch_size w :
  embedding_column = column_name +:+ "_embeddings" ->
  P (committed w) ->
  P (committed (after (create_embeddings E fuel table_name column_name
                         batch_size vector_dim w))).
Proof.
  intros Hemb Hw.
  pose proof (with_connection_committed
                (backfill E fuel table_name column_name batch_size vector_dim)
                w (preserves_backfill fuel column_name batch_size Hemb) Hw) as Hc.
  unfold create_embeddings, try_except, guarded_backfill, bind.
  destruct (res (with_connection E _ w)) as [[]|e|]; cbn; exact Hc.
Qed.

End WorldInvariant.

(** ** Rows never abort a batch *)

Lemma ok_run {A} (m : M A) w a :
  res (m w) = Ok a -> m w = Run (Ok a) (after (m w)) (log (m w)).
Proof. intros <-. by destruct (m w). Qed.

Section Rows.

Context (E : env) (table_name embedding_column pk_column : string).

Lemma process_row_ok r w :
  res (process_row E table_name embedding_column pk_column r w) = Ok tt.
Proof.
  destruct r as [id [text|]]; [|done]. cbn.
  unfold try_except, bind, embed.
  destruct (provider E (api_calls w) text) as [e|v]; cbn; [done|].
  unfold update, db_call. cbn.
  destruct (db_fault E (db_calls w) _); cbn; [done|].
  destruct (session w !! table_name) as [T|]; cbn; [|done].
  destruct (has_column T pk_column); cbn; [|done].
  destruct (tbl_columns T !! embedding_column) as [[| |d]|]; cbn; try done.
  by case_bool_decide.
Qed.

Lemma process_rows_ok rows w :
  res (process_rows E table_name embedding_column pk_column rows w) = Ok tt.
Proof.
  revert w. induction rows as [|r rows IH]; intros w; [done|]. cbn.
  rewrite (bind_ok _ _ _ _ _ _ (ok_run _ _ _ (process_row_ok r w))).
  cbn. apply IH.
Qed.

(** A batch leaves the cursor where the last [FETCH] put it. *)
Lemma process_rows_cursor rows w :
  held_cursor (after (process_rows E table_name embedding_column pk_column rows w))
  = held_cursor w.
Proof.
  pose proof (preserves_process_rows E (fun _ => True)
                (fun c => c = held_cursor w) table_name embedding_column)
    as H.
  by apply H.
Qed.

End Rows.

(** ** The model never runs out of fuel *)

Section Termination.

Context (E : env) (table_name embedding_column : string).



Lemma take_drop_shorter {A} n (l : list A) x chunk :
  take n l = x :: chunk -> length (drop n l) < length l.
Proof.
  intros Ht. rewrite length_drop.
  destruct n; [done|]. destruct l; [done|]. cbn. lia.
Qed.


Context (fuel : nat).

Let I := world_inv (fits fuel table_name) (cursor_fits fuel).





End Termination.

Section Returns.

Context (E : env) (fuel : nat) (table_name column_name : string)
        (batch_size vector_dim : nat).

Let I := world_inv (fits fuel table_name) (cursor_fits fuel).






End Returns.

(** ** Backfill: no exception reaches the caller *)



(** ** Backfill: the embedding column holds NULL or a vector of the
       configured dimension *)






(** ** Backfill: a failing row stays local *)

Section Isolation.

Context (E : env) (table_name embedding_column pk_column : string).

Lemma updated_rows_embedded v pk id i rows r :
  r ∈ update_rows embedding_column v pk id rows ->
  (id = Some i /\ pk = pk_column \/
   forall r0, r0 ∈ rows -> r0 !! pk_column = Some i ->
     exists v0, r0 !! embedding_column = Some (VVector v0)) ->
  r !! pk_column = Some i ->
  exists v0, r !! embedding_column = Some (VVector v0).
Proof.
  unfold update_rows. intros (r0 & -> & Hr0)%list_elem_of_fmap Hcase Hpk.
  destruct (matches pk id r0) eqn:Hm.
  - exists v. by rewrite lookup_insert_eq.
  - destruct Hcase as [[-> ->]|Hold]; [|by eapply Hold].
    cbn in Hm. by rewrite bool_decide_eq_false in Hm.
Qed.

Lemma embedded_kept i rows w :
  embedded_in (session w) table_name embedding_column pk_column i ->
  embedded_in
    (session (after (process_rows E table_name embedding_column pk_column rows w)))
    table_name embedding_column pk_column i.
Proof.
  apply (row_process_rows E
           (fun w => embedded_in (session w) table_name embedding_column
                       pk_column i)); [done..|].
  clear w. intros w T v pk id (T0 & HT0 & Hemb) Ht Hty. cbn.
  rewrite Ht in HT0. injection HT0 as <-.
  exists (with_rows T (update_rows embedding_column v pk id (tbl_rows T))).
  rewrite lookup_insert_eq. split; [done|]. cbn. intros r Hr Hpk.
  eapply updated_rows_embedded; [exact Hr|by right|done].
Qed.




End Isolation.


(** Row-failure isolation on a sample: the provider fails for the second of
    three rows fetched in one batch; that row is reported and stays NULL,
    the two others are embedded and committed, and the batch counts three
    processed rows. *)
Example one_failing_row_in_a_batch :
  let r := create_embeddings E_flaky 4 "trio" "body" 3 2 (fresh db_trio) in
  res r = Ok tt /\
  embeddings_of (committed (after r)) "trio" "body_embeddings" =
    [Some (VVector [1%Q; 0%Q]); None; Some (VVector [1%Q; 0%Q])] /\
  EPrint (MsgRowError "id" (Some (VInt 2)) (OtherException "rate limit"))
    ∈ log r /\
  batch_reports (log r) = [(3, 3)].
Proof.
  cbv zeta. split; [vm_compute; reflexivity|].
  split; [vm_compute; reflexivity|].
  split; [|vm_compute; reflexivity].
  replace (log _) with
    [EDb Connect; EDb (TableExists "trio"); EDb (ColumnExists "trio" "body");
     EDb (PrimaryKey "trio");
     EDb (AddVectorColumn "trio" "body_embeddings" 2); EDb Commit;
     EDb (DeclareCursor "trio" "id" "body" "body_embeddings"); EDb Commit;
     EDb (Fetch 3);
     EEmbed (VText "a");
     EDb (Update "trio" "body_embeddings" [1%Q; 0%Q] "id" (Some (VInt 1)));
     EEmbed (VText "b");
     EPrint (MsgRowError "id" (Some (VInt 2)) (OtherException "rate limit"));
     EEmbed (VText "c");
     EDb (Update "trio" "body_embeddings" [1%Q; 0%Q] "id" (Some (VInt 3)));
     EDb Commit; EPrint (MsgBatch 3 3);
     EDb (Fetch 3); EDb CloseCursor; EDb Commit; EDb Commit;
     EPrint MsgCompleted]
    by (vm_compute; reflexivity).
  repeat first [apply list_elem_of_here | apply list_elem_of_further].
Qed.

(** ** Backfill: the fetch loop, when only point updates may fail *)

Section Loop.

Context (E : env) (table_name embedding_column pk_column : string)
        (batch_size : nat).

Lemma process_row_events r w :
  Forall row_event
    (log (process_row E table_name embedding_column pk_column r w)).
Proof.
  destruct r as [id [text|]]; [|by constructor]. cbn.
  rewrite log_try_except, log_bind. unfold update at 1. 
  assert (Hl : log (embed E text w) = [EEmbed text]).
  { unfold embed. by destruct (provider E (api_calls w) text). }
  rewrite Hl. apply Forall_app. split.
  - apply Forall_app. split; [by repeat constructor|].
    destruct (res (embed E text w)); [|constructor..].
    rewrite log_db_call. by repeat constructor.
  - destruct (res _); [constructor| |constructor]. by repeat constructor.
Qed.

Lemma process_rows_events rows w :
  Forall row_event
    (log (process_rows E table_name embedding_column pk_column rows w)).
Proof.
  revert w. induction rows as [|r rows IH]; intros w; [by constructor|].
  cbn [process_rows]. rewrite log_bind. apply Forall_app. split.
  - apply process_row_events.
  - destruct (res _); [apply IH|constructor..].
Qed.

Lemma row_events_no_report l : Forall row_event l -> batch_reports l = [].
Proof.
  induction 1 as [|e l He _ IH]; [done|]. unfold batch_reports in *. cbn.
  rewrite IH. by destruct e as [[]| |[]].
Qed.

Hypothesis Hnf : only_update_faults E.

(** One iteration of [while True]. *)
Lemma fetch_loop_step fuel total_processed w rows :
  held_cursor w = Some rows ->
  fetch_loop E (S fuel) table_name embedding_column pk_column batch_size
    total_processed w =
  let w1 := set_cursor (Some (drop batch_size rows)) (next_call w) in
  match take batch_size rows with
  | [] => Run (Ok total_processed) w1 [EDb (Fetch batch_size)]
  | (_ :: _) as chunk =>
      let r := process_rows E table_name embedding_column pk_column chunk w1 in
      let total := total_processed + length chunk in
      prepend (EDb (Fetch batch_size) :: log r ++
               [EDb Commit; EPrint (MsgBatch (length chunk) total)])
        (fetch_loop E fuel table_name embedding_column pk_column batch_size
           total (publish (next_call (after r))))
  end.
Proof.
  intros Hcur. cbn [fetch_loop].
  eapply bind_then.
  { unfold fetch. rewrite db_call_run by (apply Hnf; reflexivity).
    cbn. rewrite Hcur. reflexivity. }
  cbv zeta. destruct (take batch_size rows) as [|r0 chunk]; [done|].
  eapply prepend_bind_then.
  { apply ok_run, process_rows_ok. }
  step Hnf. eapply prepend_bind_then; [reflexivity|].
  cbn [app]. by rewrite <- !app_assoc.
Qed.

Lemma batch_reports_app l1 l2 :
  batch_reports (l1 ++ l2) = batch_reports l1 ++ batch_reports l2.
Proof. apply omap_app. Qed.

(** The whole loop: it stops after a last, empty [FETCH], having counted
    every row it fetched. *)
Lemma fetch_loop_run fuel total_processed w rows :
  held_cursor w = Some rows ->
  length rows < fuel ->
  exists w' l,
    fetch_loop E fuel table_name embedding_column pk_column batch_size
      total_processed w =
    Run (Ok (total_processed +
             (length rows - length (left_in_cursor batch_size rows))))
        w' (l ++ [EDb (Fetch batch_size)]) /\
    held_cursor w' = Some (left_in_cursor batch_size rows) /\
    batch_reports l = progress fuel batch_size total_processed rows /\
    (rows = [] ->
     l = [] /\ committed w' = committed w /\ session w' = session w).
Proof.
  revert total_processed w rows.
  induction fuel as [|fuel IH]; intros total_processed w rows Hcur Hlen; [lia|].
  rewrite (fetch_loop_step fuel total_processed w rows Hcur). cbv zeta.
  cbn [progress].
  destruct (take batch_size rows) as [|r0 chunk] eqn:Htake.
  - eexists _, []. 
    assert (Hleft : drop batch_size rows = left_in_cursor batch_size rows
                    /\ length rows - length (left_in_cursor batch_size rows) = 0).
    { destruct batch_size as [|b]; cbn; [split; [done|lia]|].
      destruct rows; [done|discriminate]. }
    destruct Hleft as [Hdrop ->]. rewrite Nat.add_0_r.
    repeat split; cbn; by rewrite ?Hdrop.
  - pose proof (take_drop_shorter _ _ _ _ Htake) as Hshort.
    pose proof (f_equal length (take_drop batch_size rows)) as Hsplit.
    rewrite length_app, Htake in Hsplit.
    set (w1 := set_cursor _ _).
    set (r := process_rows E table_name embedding_column pk_column
                (r0 :: chunk) w1).
    destruct (IH (total_processed + length (r0 :: chunk))
                (publish (next_call (after r))) (drop batch_size rows))
      as (w' & l' & Hrun & Hcur' & Hrep & _).
    { cbn [held_cursor publish next_call]. unfold r.
      by rewrite process_rows_cursor. }
    { lia. }
    rewrite Hrun.
    exists w', (EDb (Fetch batch_size) :: log r ++
                [EDb Commit;
                 EPrint (MsgBatch (length (r0 :: chunk))
                           (total_processed + length (r0 :: chunk)))] ++ l').
    assert (Hb : left_in_cursor batch_size (drop batch_size rows) = []
                 /\ left_in_cursor batch_size rows = []).
    { destruct batch_size; [discriminate|done]. }
    destruct Hb as [Hb1 Hb2]. rewrite Hb1 in *. rewrite Hb2.
    repeat split.
    + unfold prepend. cbn [res after log length]. f_equal.
      * f_equal. cbn [length] in *. lia.
      * cbn [app]. by rewrite <- !app_assoc.
    + done.
    + change (EDb (Fetch batch_size) :: ?x) with ([EDb (Fetch batch_size)] ++ x).
      rewrite !batch_reports_app.
      rewrite (row_events_no_report (log r)) by apply process_rows_events.
      cbn. by rewrite Hrep.
    + subst rows. by rewrite take_nil in Htake.
    + subst rows. by rewrite take_nil in Htake.
    + subst rows. by rewrite take_nil in Htake.
Qed.

End Loop.

(** ** Backfill: a whole run, when only point updates may fail *)

Section WholeRun.

Context (E : env) (fuel : nat) (table_name column_name : string)
        (batch_size vector_dim : nat).
Hypothesis Hnf : only_update_faults E.

Let emb := column_name +:+ "_embeddings".

(** From [DECLARE] to the end of the [with] block. *)
Lemma declared_run pk_column T w :
  session w !! table_name = Some T ->
  held_cursor w = None ->
  has_column T pk_column = true ->
  has_column T column_name = true ->
  has_column T emb = true ->
  length (tbl_rows T) < fuel ->
  let rows := select_unembedded pk_column column_name emb (tbl_rows T) in
  exists w' l,
    stream_rows E fuel table_name column_name emb pk_column batch_size w =
    Run (Ok FellThrough) w'
      ([EDb (DeclareCursor table_name pk_column column_name emb); EDb Commit]
       ++ l ++ [EDb (Fetch batch_size); EDb CloseCursor; EDb Commit]) /\
    held_cursor w' = None /\
    batch_reports l = progress fuel batch_size 0 rows /\
    (rows = [] ->
     l = [] /\ committed w' = session w /\ session w' = session w).
Proof.
  intros Ht Hcur Hpk Hc Hemb Hlen rows.
  set (w2 := publish (next_call (set_cursor (Some rows) (next_call w)))).
  destruct (fetch_loop_run E table_name emb pk_column batch_size Hnf fuel 0
              w2 rows) as (w3 & l & Hloop & Hcur3 & Hrep & Hnil).
  { reflexivity. }
  { unfold rows, select_unembedded. rewrite length_fmap.
    pose proof (length_filter (fun r : row => r !! emb = None) (tbl_rows T)).
    lia. }
  exists (publish (next_call (set_cursor None (next_call w3)))), l.
  split; [|split; [done|split; [done|]]].
  - unfold stream_rows. into.
    { unfold declare_cursor. rewrite db_call_run by (apply Hnf; reflexivity).
      cbn. rewrite Ht, Hpk, Hc, Hemb, Hcur. reflexivity. }
    step Hnf. fold rows. fold w2.
    eapply prepend_bind_then; [exact Hloop|].
    into.
    { unfold close_cursor. rewrite db_call_run by (apply Hnf; reflexivity).
      cbn. rewrite Hcur3. reflexivity. }
    step Hnf. unfold prepend, ret. cbn [res after log app].
    f_equal. by rewrite <- !app_assoc.
  - intros Hrows. destruct (Hnil Hrows) as (-> & Hc3 & Hs3).
    split; [done|]. cbn. by rewrite Hs3.
Qed.

Lemma has_column_with_column T c x ty :
  has_column T x = true -> has_column (with_column T c ty) x = true.
Proof.
  unfold has_column, with_column. cbn.
  destruct (decide (c = x)) as [->|Hne];
    [by rewrite lookup_insert_eq|by rewrite lookup_insert_ne].
Qed.

Lemma has_column_added T c ty : has_column (with_column T c ty) c = true.
Proof. unfold has_column, with_column. cbn. by rewrite lookup_insert_eq. Qed.

(** A run whose preflight passes. *)
Lemma create_embeddings_run T pk_column pk_columns w :
  committed w !! table_name = Some T ->
  has_column T column_name = true ->
  tbl_pkey T = pk_column :: pk_columns ->
  has_column T pk_column = true ->
  length (tbl_rows T) < fuel ->
  let rows := select_unembedded pk_column column_name emb (tbl_rows T) in
  exists w' l,
    create_embeddings E fuel table_name column_name batch_size vector_dim w =
    Run (Ok tt) w'
      ([EDb Connect; EDb (TableExists table_name);
        EDb (ColumnExists table_name column_name);
        EDb (PrimaryKey table_name);
        EDb (AddVectorColumn table_name emb vector_dim); EDb Commit;
        EDb (DeclareCursor table_name pk_column column_name emb); EDb Commit]
       ++ l ++
       [EDb (Fetch batch_size); EDb CloseCursor; EDb Commit; EDb Commit;
        EPrint MsgCompleted]) /\
    held_cursor w' = None /\
    batch_reports l = progress fuel batch_size 0 rows /\
    (rows = [] -> has_column T emb = true ->
     l = [] /\ committed w' = committed w).
Proof.
  intros Ht Hc Hpk Hpkc Hlen rows.
  set (w0 := reopen (next_call w)).
  set (w4 := next_call (next_call (next_call (next_call w0)))).
  destruct (has_column T emb) eqn:He.
  - set (w5 := publish (next_call w4)).
    destruct (declared_run pk_column T w5)
      as (w' & l & Hs & Hcur & Hrep & Hnil); [done..|].
    eassert (Hb : backfill E fuel table_name column_name batch_size vector_dim
                    w0 = Run (Ok FellThrough) _ _).
    { unfold backfill. step Hnf. rewrite Ht. step Hnf.
      unfold db_has_column. rewrite Ht, Hc. step Hnf. rewrite Ht, Hpk.
      cbv zeta. into.
      { unfold add_vector_column.
        rewrite db_call_run by (apply Hnf; reflexivity).
        cbn. rewrite Ht. fold emb. rewrite He. reflexivity. }
      step Hnf. fold emb.
      lazymatch goal with
      | |- context [stream_rows _ _ _ _ _ _ _ ?W] => change W with w5
      end.
      rewrite Hs. unfold prepend. cbn [res after log]. reflexivity. }
    rewrite (create_embeddings_fell_through E fuel table_name column_name
               batch_size vector_dim w Hnf _ _ Hb).
    exists (publish (next_call w')), l. split; [|split; [done|split; [done|]]].
    + f_equal. cbn [app]. by rewrite <- !app_assoc.
    + intros Hrows _. destruct (Hnil Hrows) as (Hl & Hc' & Hs').
      split; [done|]. cbn. by rewrite Hs'.
  - set (T1 := with_column T emb (TVector vector_dim)).
    set (w5 := publish (next_call
                 (set_session (<[table_name := T1]> (session w4)) w4))).
    destruct (declared_run pk_column T1 w5)
      as (w' & l & Hs & Hcur & Hrep & Hnil);
      [apply lookup_insert_eq|done
      |by apply has_column_with_column|by apply has_column_with_column
      |apply has_column_added|done|].
    eassert (Hb : backfill E fuel table_name column_name batch_size vector_dim
                    w0 = Run (Ok FellThrough) _ _).
    { unfold backfill. step Hnf. rewrite Ht. step Hnf.
      unfold db_has_column. rewrite Ht, Hc. step Hnf. rewrite Ht, Hpk.
      cbv zeta. into.
      { unfold add_vector_column.
        rewrite db_call_run by (apply Hnf; reflexivity).
        cbn. rewrite Ht. fold emb. rewrite He. reflexivity. }
      step Hnf. fold emb.
      lazymatch goal with
      | |- context [stream_rows _ _ _ _ _ _ _ ?W] => change W with w5
      end.
      rewrite Hs. unfold prepend. cbn [res after log]. reflexivity. }
    rewrite (create_embeddings_fell_through E fuel table_name column_name
               batch_size vector_dim w Hnf _ _ Hb).
    exists (publish (next_call w')), l. split; [|split; [done|split; [done|]]].
    + f_equal. cbn [app]. by rewrite <- !app_assoc.
    + done.
Qed.

End WholeRun.

Lemma E_steady_only_update_faults : only_update_faults E_steady.
Proof. intros n c _. reflexivity. Defined.

(** ** Backfill: the loop ends and the cursor is released *)

(** C4.  When the preflight passes and the database client fails at most on
    point updates, a run with fuel for as many iterations as the table has
    rows terminates normally: the loop stops at the first empty [FETCH],
    which is immediately followed by [CLOSE embedding_cursor] and by the
    commit of that release (then by the commit that leaves the connection
    block), and no cursor is left open. *)
Theorem loop_ends_and_cursor_is_closed E fuel table_name column_name
    batch_size vector_dim w T pk_column pk_columns :
  only_update_faults E ->
  committed w !! table_name = Some T ->
  has_column T column_name = true ->
  tbl_pkey T = pk_column :: pk_columns ->
  has_column T pk_column = true ->
  length (tbl_rows T) < fuel ->
  let r := create_embeddings E fuel table_name column_name
             batch_size vector_dim w in
  res r = Ok tt /\
  held_cursor (after r) = None /\
  exists before,
    log r = before ++ [EDb (Fetch batch_size); EDb CloseCursor; EDb Commit;
                       EDb Commit; EPrint MsgCompleted].
Proof.
  intros Hnf Ht Hc Hpk Hpkc Hlen r.
  destruct (create_embeddings_run E fuel table_name column_name batch_size
              vector_dim Hnf T pk_column pk_columns w Ht Hc Hpk Hpkc Hlen)
    as (w' & l & Hr & Hcur & _). subst r. rewrite Hr. cbn [res after log].
  split; [done|]. split; [done|]. eexists. by rewrite app_assoc.
Qed.

Lemma docs_lookup : committed (fresh db_docs) !! "docs" = Some docs.
Proof. vm_compute. reflexivity. Defined.

Lemma loop_ends_and_cursor_is_closed_witness :
  only_update_faults E_steady /\
  committed (fresh db_docs) !! "docs" = Some docs /\
  has_column docs "body" = true /\
  tbl_pkey docs = ["id"] /\
  has_column docs "id" = true /\
  length (tbl_rows docs) < 4 /\
  res (create_embeddings E_steady 4 "docs" "body" 2 2 (fresh db_docs)) = Ok tt.
Proof.
  assert (H1 : has_column docs "body" = true) by (vm_compute; reflexivity).
  assert (H2 : tbl_pkey docs = ["id"]) by reflexivity.
  assert (H3 : has_column docs "id" = true) by (vm_compute; reflexivity).
  assert (H4 : length (tbl_rows docs) < 4) by (vm_compute; lia).
  split; [exact E_steady_only_update_faults|].
  split; [exact docs_lookup|].
  split; [exact H1|]. split; [exact H2|]. split; [exact H3|]. split; [exact H4|].
  exact (proj1 (loop_ends_and_cursor_is_closed E_steady 4 "docs" "body" 2 2
                  (fresh db_docs) docs "id" [] E_steady_only_update_faults
                  docs_lookup H1 H2 H3 H4)).
Defined.

(** ** Backfill: what the running total counts *)

(** C10.  When the database client fails at most on point updates, the loop
    over a cursor holding [rows] prints one progress line per non-empty
    chunk, carrying the size of the fetched chunk and the total advanced by
    exactly that size ([progress] looks neither at the texts nor at what the
    provider or the updates did), and it ends with the total advanced by the
    number of rows fetched from the cursor. *)
Theorem total_counts_every_fetched_row E table_name embedding_column pk_column
    batch_size fuel total_processed w rows :
  only_update_faults E ->
  held_cursor w = Some rows ->
  length rows < fuel ->
  let r := fetch_loop E fuel table_name embedding_column pk_column batch_size
             total_processed w in
  res r = Ok (total_processed +
              (length rows - length (left_in_cursor batch_size rows))) /\
  batch_reports (log r) = progress fuel batch_size total_processed rows.
Proof.
  intros Hnf Hcur Hlen r.
  destruct (fetch_loop_run E table_name embedding_column pk_column batch_size
              Hnf fuel total_processed w rows Hcur Hlen)
    as (w' & l & Hr & _ & Hrep & _). subst r. rewrite Hr. cbn [res log].
  split; [done|]. rewrite batch_reports_app, Hrep. cbn. by rewrite app_nil_r.
Qed.

Lemma total_counts_every_fetched_row_witness :
  only_update_faults E_steady /\
  held_cursor mid_run =
    Some [(Some (VInt 1), Some (VText "a")); (Some (VInt 2), None)] /\
  length [(Some (VInt 1), Some (VText "a")); (Some (VInt 2), @None value)] < 3 /\
  res (fetch_loop E_steady 3 "docs" "body_embeddings" "id" 1 0 mid_run) = Ok 2.
Proof.
  assert (H : length [(Some (VInt 1), Some (VText "a"));
                      (Some (VInt 2), @None value)] < 3) by (cbn; lia).
  split; [exact E_steady_only_update_faults|].
  split; [reflexivity|]. split; [exact H|].
  exact (proj1 (total_counts_every_fetched_row E_steady "docs"
                  "body_embeddings" "id" 1 3 0 mid_run _
                  E_steady_only_update_faults eq_refl H)).
Defined.

(** ** Backfill: runs on a table that is already embedded *)





(** On [trio], where every row has a text and nothing fails, the first run
    embeds every row and the second one fetches nothing and changes
    nothing. *)
Example second_run_is_idle_after_a_full_one :
  let first := create_embeddings E_steady 4 "trio" "body" 2 2 (fresh db_trio) in
  let second := create_embeddings E_steady 4 "trio" "body" 2 2 (after first) in
  batch_reports (log first) = [(2, 2); (1, 3)] /\
  batch_reports (log second) = [] /\
  committed (after second) = committed (after first) /\
  embeddings_of (committed (after second)) "trio" "body_embeddings" =
    [Some (VVector [1%Q; 0%Q]); Some (VVector [1%Q; 0%Q]);
     Some (VVector [1%Q; 0%Q])].
Proof.
  cbv zeta. split; [vm_compute; reflexivity|].
  split; [vm_compute; reflexivity|].
  split; vm_compute; reflexivity.
Qed.

(** ** Backfill: what one transaction carries *)








Section Transactions.

Context (E : env) (b : nat).












Context (table_name embedding_column pk_column : string).





End Transactions.




(** ** Query mode: the ranking *)

#[global] Instance closer_total : Total closer.
Proof.
  intros a b. unfold closer. rewrite !Is_true_true, !Qle_bool_iff.
  destruct (Qlt_le_dec a.2 b.2) as [H|H]; [left; by apply Qlt_le_weak|by right].
Qed.

#[global] Instance closer_transitive : Transitive closer.
Proof.
  intros a b c. unfold closer. rewrite !Is_true_true, !Qle_bool_iff.
  apply Qle_trans.
Qed.

Lemma print_results_run i results w :
  print_results i results w = Run (Ok tt) w (result_lines i results).
Proof.
  revert i. induction results as [|[text similarity] rest IH]; intros i; [done|].
  cbn [print_results result_lines].
  eapply bind_then; [reflexivity|].
  eapply prepend_bind_then; [reflexivity|].
  rewrite IH. reflexivity.
Qed.

Lemma bind_inv {A B} (m : M A) (f : A -> M B) w b w' l :
  bind m f w = Run (Ok b) w' l ->
  exists a w1 l1 l2,
    m w = Run (Ok a) w1 l1 /\ f a w1 = Run (Ok b) w' l2 /\ l = l1 ++ l2.
Proof.
  unfold bind. destruct (m w) as [[a|e|] w1 l1]; cbn; [|done..].
  destruct (f a w1) as [o w2 l2] eqn:Hf. unfold prepend. cbn.
  intros [= -> -> <-]. by exists a, w1, l1, l2.
Qed.

Lemma try_except_inv {A} (m : M A) h w a w' l :
  try_except m h w = Run (Ok a) w' l ->
  m w = Run (Ok a) w' l \/
  exists e w1 l1 l2,
    m w = Run (Raise e) w1 l1 /\ h e w1 = Run (Ok a) w' l2 /\ l = l1 ++ l2.
Proof.
  unfold try_except. destruct (m w) as [[a0|e|] w1 l1]; cbn; [by left| |done].
  destruct (h e w1) as [o w2 l2] eqn:Hh. unfold prepend. cbn.
  intros [= -> -> <-]. right. by exists e, w1, l1, l2.
Qed.

Lemma try_except_psycopg_inv {A} (m : M A) h w a w' l :
  try_except_psycopg m h w = Run (Ok a) w' l ->
  m w = Run (Ok a) w' l \/
  exists e w1 l1 l2,
    m w = Run (Raise e) w1 l1 /\ h e w1 = Run (Ok a) w' l2 /\ l = l1 ++ l2.
Proof.
  unfold try_except_psycopg.
  destruct (m w) as [[a0|[s|s]|] w1 l1]; cbn; [by left| |done..].
  destruct (h (PsycopgError s) w1) as [o w2 l2] eqn:Hh. unfold prepend. cbn.
  intros [= -> -> <-]. right. by exists (PsycopgError s), w1, l1, l2.
Qed.

Lemma db_call_inv {A} E c (sem : world -> exn + (A * world)) w a w' l :
  db_call E c sem w = Run (Ok a) w' l ->
  sem (next_call w) = inr (a, w') /\ l = [EDb c].
Proof.
  unfold db_call. destruct (db_fault E (db_calls w) c); [done|].
  destruct (sem (next_call w)) as [e|[a0 w2]]; [done|]. by intros [= -> -> <-].
Qed.

Lemma ret_inv {A} (a b : A) w w' l :
  ret a w = Run (Ok b) w' l -> a = b /\ w' = w /\ l = [].
Proof. by intros [= -> -> <-]. Qed.

Lemma print_inv m w (b : unit) w' l :
  print m w = Run (Ok b) w' l -> w' = w /\ l = [EPrint m].
Proof. by intros [= _ -> <-]. Qed.

Lemma embed_inv E x w v w' l :
  embed E x w = Run (Ok v) w' l ->
  provider E (api_calls w) x = inr v /\ w' = next_request w /\ l = [EEmbed x].
Proof.
  unfold embed. destruct (provider E (api_calls w) x); [done|].
  by intros [= -> <- <-].
Qed.

(** Splits a run [bind m f w] that returned into the run of [m] and the run
    of the rest. *)
Ltac binds H a Hm :=
  let w := fresh "w" in
  let l1 := fresh "l" in
  let l2 := fresh "l" in
  apply bind_inv in H as (a & w & l1 & l2 & Hm & H & ->).

Ltac binds_all H :=
  repeat (let a := fresh "a" in let Hm := fresh "Hm" in binds H a Hm).

(** A branch that ends in [return] yields no results. *)
Ltac returned_early H :=
  binds_all H; apply ret_inv in H as [? _]; discriminate.

Lemma semantic_search_success E table_name column_name search_phrase limit
    w results w' l :
  semantic_search E table_name column_name search_phrase limit w =
    Run (Ok (Some results)) w' l ->
  let emb := column_name +:+ "_embeddings" in
  exists q T,
    provider E (api_calls w) (VText search_phrase) = inr q /\
    committed w !! table_name = Some T /\
    (0 <= limit)%Z /\
    nearest E column_name emb q (Z.to_nat limit) (tbl_rows T) = Some results /\
    l = [EDb Connect; EEmbed (VText search_phrase);
         EDb (TableExists table_name);
         EDb (ColumnExists table_name column_name);
         EDb (ColumnExists table_name emb);
         EDb (NearestQuery table_name column_name emb q limit);
         EPrint (MsgTop limit search_phrase); EPrint MsgRule]
        ++ result_lines 1 results ++ [EDb CloseConnection].
Proof.
  intros H emb. unfold semantic_search in H.
  binds H connected Hconn.
  destruct connected; cbn [negb] in H; [|returned_early H].
  apply try_except_psycopg_inv in Hconn
    as [Hconn|(? & ? & ? & ? & _ & Hh & _)]; [|returned_early Hh].
  binds Hconn u Hc. apply db_call_inv in Hc as [[= _ <-] ->].
  apply ret_inv in Hconn as (_ & -> & ->).
  binds H embedded Hemb. destruct embedded as [q|]; [|returned_early H].
  apply try_except_inv in Hemb
    as [Hemb|(? & ? & ? & ? & _ & Hh & _)]; [|returned_early Hh].
  binds Hemb v Hv. apply embed_inv in Hv as (Hq & -> & ->).
  apply ret_inv in Hemb as ([= ->] & -> & ->).
  cbv zeta in H. fold emb in H.
  binds H found Hf. apply db_call_inv in Hf as [[= <- <-] ->]. cbn in H.
  destruct (committed w !! table_name) as [T|] eqn:Ht;
    cbn [negb] in H; [|returned_early H].
  binds H text_column_exists Ht1. apply db_call_inv in Ht1 as [[= <- <-] ->].
  binds H embedding_column_exists Ht2.
  apply db_call_inv in Ht2 as [[= <- <-] ->].
  unfold db_has_column in H. cbn in H. rewrite Ht in H.
  destruct (has_column T column_name) eqn:Hc;
    cbn [negb orb] in H; [|returned_early H].
  destruct (has_column T emb) eqn:Hcol;
    cbn [negb orb] in H; [|returned_early H].
  binds H got Hfetch. destruct got as [found|]; [|returned_early H].
  apply try_except_psycopg_inv in Hfetch
    as [Hfetch|(? & ? & ? & ? & _ & Hh & _)]; [|returned_early Hh].
  binds Hfetch found' Hsem. apply ret_inv in Hfetch as ([= ->] & -> & ->).
  apply db_call_inv in Hsem as [Hsem ->]. cbn in Hsem.
  rewrite Ht, Hc, Hcol in Hsem. cbn in Hsem.
  case_bool_decide as Hk; [done|].
  destruct (nearest E column_name emb q (Z.to_nat limit) (tbl_rows T))
    as [answer|] eqn:Hn; [|done].
  injection Hsem as <- <-.
  binds H u1 Hp1. apply print_inv in Hp1 as [-> ->].
  binds H u2 Hp2. apply print_inv in Hp2 as [-> ->].
  binds H u3 Hp3. rewrite print_results_run in Hp3. injection Hp3 as <- <-.
  binds H u4 Hp4. apply db_call_inv in Hp4 as [_ ->].
  apply ret_inv in H as ([= <-] & _ & ->).
  exists q, T. cbn in Hq. subst l.
  split; [done|]. split; [done|]. split; [lia|]. split; [done|].
  cbn. by rewrite ?app_nil_r.
Qed.

(** C8.  A query that reaches the display was given a limit [K >= 0] and a
    table [T]; its results are at most [K] pairs, obtained from the rows of
    [T] whose embedding is not NULL: each such row contributes its text and
    its distance to the embedded phrase, these candidates are put in
    ascending order of distance (each one is at most as far as all that
    follow), the first [K] are kept and each is returned with the
    similarity [1 - distance].  They are printed in that order, ranks
    counted from 1, just before the connection is closed. *)
Theorem ranking_is_sorted_and_limited E table_name column_name search_phrase
    limit w results :
  res (semantic_search E table_name column_name search_phrase limit w)
  = Ok (Some results) ->
  let emb := column_name +:+ "_embeddings" in
  (0 <= limit)%Z /\
  length results <= Z.to_nat limit /\
  exists q T candidates ranked,
    provider E (api_calls w) (VText search_phrase) = inr q /\
    committed w !! table_name = Some T /\
    Forall2 (fun r s => exists v, r !! emb = Some (VVector v) /\
                                  s = (r !! column_name, cosine_distance E v q))
            (filter (fun r => r !! emb <> None) (tbl_rows T)) candidates /\
    ranked ≡ₚ candidates /\
    StronglySorted closer ranked /\
    results = (fun s => (s.1, (1 - s.2)%Q)) <$> take (Z.to_nat limit) ranked /\
    exists before,
      log (semantic_search E table_name column_name search_phrase limit w) =
      before ++ result_lines 1 results ++ [EDb CloseConnection].
Proof.
  intros Hres emb. apply ok_run in Hres.
  destruct (semantic_search_success _ _ _ _ _ _ _ _ _ Hres)
    as (q & T & Hq & Ht & Hk & Hn & Hl).
  fold emb in Hn, Hl. unfold nearest in Hn.
  destruct (mapM (score_row E column_name emb q) _) as [candidates|] eqn:Hm;
    [|done].
  cbn in Hn. injection Hn as Hn.
  split; [done|]. split.
  { rewrite <- Hn, length_fmap, length_take. lia. }
  exists q, T, candidates, (merge_sort closer candidates).
  split; [done|]. split; [done|]. split.
  { apply mapM_Some_1 in Hm. eapply Forall2_impl; [exact Hm|].
    intros r s. unfold score_row.
    destruct (r !! emb) as [[| |v]|]; try done.
    case_bool_decide; [|done]. intros [= <-]. by exists v. }
  split; [apply merge_sort_Permutation|].
  split; [apply StronglySorted_merge_sort; apply _|].
  split; [done|]. eexists. exact Hl.
Qed.

Lemma ranking_is_sorted_and_limited_witness :
  res (semantic_search E_query "notes" "body" "anything" 2 (fresh db_notes))
  = Ok (Some [(Some (VText "near"), 9 # 10); (Some (VText "mid"), 5 # 10)]) /\
  (0 <= 2)%Z.
Proof.
  assert (H : res (semantic_search E_query "notes" "body" "anything" 2
                     (fresh db_notes))
              = Ok (Some [(Some (VText "near"), 9 # 10);
                          (Some (VText "mid"), 5 # 10)]))
    by (vm_compute; reflexivity).
  split; [exact H|].
  exact (proj1 (ranking_is_sorted_and_limited E_query "notes" "body"
                  "anything" 2 (fresh db_notes) _ H)).
Defined.

(** * Further properties of the query *)

(** ** Query mode: nothing is written *)

Section Emits.

Context (E : env) (Q : event -> Prop).

Lemma emits_ret {A} (a : A) : emits Q (ret a).
Proof. intros w. constructor. Qed.

Lemma emits_raise {A} e : emits Q (@raise A e).
Proof. intros w. constructor. Qed.

Lemma emits_print m : Q (EPrint m) -> emits Q (print m).
Proof. intros Hm w. by repeat constructor. Qed.

Lemma emits_db_call {A} c (sem : world -> exn + (A * world)) :
  Q (EDb c) -> emits Q (db_call E c sem).
Proof. intros Hc w. rewrite log_db_call. by repeat constructor. Qed.

Lemma emits_embed x : Q (EEmbed x) -> emits Q (embed E x).
Proof.
  intros Hx w. unfold embed.
  destruct (provider E (api_calls w) x); by repeat constructor.
Qed.

Lemma emits_bind {A B} (m : M A) (f : A -> M B) :
  emits Q m -> (forall a, emits Q (f a)) -> emits Q (bind m f).
Proof.
  intros Hm Hf w. rewrite log_bind. apply Forall_app. split; [apply Hm|].
  destruct (res (m w)); [apply Hf|constructor..].
Qed.

Lemma emits_try_except {A} (m : M A) h :
  emits Q m -> (forall e, emits Q (h e)) -> emits Q (try_except m h).
Proof.
  intros Hm Hh w. rewrite log_try_except. apply Forall_app. split; [apply Hm|].
  destruct (res (m w)); [constructor|apply Hh|constructor].
Qed.

Lemma log_try_except_psycopg {A} (m : M A) (h : exn -> M A) w :
  log (try_except_psycopg m h w) =
  log (m w) ++ match res (m w) with
               | Raise (PsycopgError s) => log (h (PsycopgError s) (after (m w)))
               | _ => []
               end.
Proof.
  unfold try_except_psycopg.
  destruct (res (m w)) as [a|[s|s]|]; cbn; by rewrite ?app_nil_r.
Qed.

Lemma emits_try_except_psycopg {A} (m : M A) h :
  emits Q m -> (forall e, emits Q (h e)) -> emits Q (try_except_psycopg m h).
Proof.
  intros Hm Hh w. rewrite log_try_except_psycopg.
  apply Forall_app. split; [apply Hm|].
  destruct (res (m w)) as [a|[s|s]|]; [constructor|apply Hh|constructor..].
Qed.

Lemma preserves_try_except_psycopg {A} (I : world -> Prop) (m : M A) h :
  preserves I m -> (forall e, preserves I (h e)) ->
  preserves I (try_except_psycopg m h).
Proof.
  intros Hm Hh w Hw. specialize (Hm w Hw). unfold try_except_psycopg.
  destruct (res (m w)) as [a|[s|s]|]; cbn; [done|by apply Hh|done..].
Qed.

End Emits.

Lemma emits_print_results Q i results :
  (forall m, Q (EPrint m)) -> emits Q (print_results i results).
Proof.
  intros HQ w. rewrite print_results_run. cbn.
  revert i. induction results as [|[text similarity] rest IH]; intros i;
    [constructor|].
  cbn. constructor; [apply HQ|]. constructor; [apply HQ|]. apply IH.
Qed.

Ltac emitting :=
  repeat first
    [ apply emits_ret | apply emits_raise
    | apply emits_print; exact I
    | apply emits_print_results; intros; exact I
    | apply emits_db_call; exact I
    | apply emits_embed; exact I
    | apply emits_bind; [|intros ?]
    | apply emits_try_except; [|intros ?]
    | apply emits_try_except_psycopg; [|intros ?]
    | match goal with |- emits _ (if ?b then _ else _) => destruct b end
    | match goal with |- emits _ (match ?x with _ => _ end) => destruct x end ].

Section ReadOnly.

Context (E : env) (db : gmap string table).

Let I := fun w : world => committed w = db.

Lemma same_committed_call {A} c (sem : world -> exn + (A * world)) :
  (forall w a w2, sem w = inr (a, w2) -> committed w2 = committed w) ->
  preserves I (db_call E c sem).
Proof.
  intros Hs. apply preserves_db_call; [done|].
  intros w a w2 Hw Hsem. unfold I. by rewrite (Hs _ _ _ Hsem).
Qed.

Lemma same_committed_print_results i results :
  preserves I (print_results i results).
Proof. intros w Hw. by rewrite print_results_run. Qed.

Ltac keeping :=
  repeat first
    [ apply preserves_ret | apply preserves_raise | apply preserves_print
    | apply same_committed_print_results
    | apply preserves_embed; by intros ?
    | apply same_committed_call; intros ? ? ?; by intros [= _ <-]
    | apply preserves_bind; [|intros ?]
    | apply preserves_try_except; [|intros ?]
    | apply preserves_try_except_psycopg; [|intros ?]
    | match goal with |- preserves _ (if ?b then _ else _) => destruct b end
    | match goal with |- preserves _ (match ?x with _ => _ end) => destruct x end ].

Lemma semantic_search_same_committed table_name column_name search_phrase limit :
  preserves I (semantic_search E table_name column_name search_phrase limit).
Proof.
  unfold semantic_search, connect, close_connection, table_exists,
    column_exists. keeping.
  unfold nearest_query. apply same_committed_call. intros w0 found w2.
  destruct (session w0 !! table_name) as [T|]; [|done].
  destruct (_ && _); [|done]. case_bool_decide; [done|].
  destruct (nearest _ _ _ _ _ _); [|done]. by intros [= _ <-].
Qed.

End ReadOnly.

(** X1.  A query never writes: whatever the collaborators do, the committed
    database after [semantic_search] is the one before, and the run issues
    no [ALTER], [UPDATE], cursor statement, commit or rollback. *)
Theorem semantic_search_reads_only E table_name column_name search_phrase
    limit w :
  let r := semantic_search E table_name column_name search_phrase limit w in
  committed (after r) = committed w /\ Forall reads_only (log r).
Proof.
  split.
  - by apply (semantic_search_same_committed E (committed w)).
  - revert w. change (emits reads_only
      (semantic_search E table_name column_name search_phrase limit)).
    unfold semantic_search, connect, close_connection, table_exists,
      column_exists, nearest_query. emitting.
Qed.

(** ** Query mode: the paths that return no results *)

Lemma db_call_fault {A} E c (sem : world -> exn + (A * world)) w e :
  db_fault E (db_calls w) c = Some e ->
  db_call E c sem w = Run (Raise e) (next_call w) [EDb c].
Proof. unfold db_call. by intros ->. Qed.

Lemma try_except_psycopg_raise {A} (m : M A) h w s w' l :
  m w = Run (Raise (PsycopgError s)) w' l ->
  try_except_psycopg m h w = prepend l (h (PsycopgError s) w').
Proof. unfold try_except_psycopg. by intros ->. Qed.

Lemma try_except_psycopg_pass {A} (m : M A) h w s w' l :
  m w = Run (Raise (OtherException s)) w' l ->
  try_except_psycopg m h w = Run (Raise (OtherException s)) w' l.
Proof. unfold try_except_psycopg. by intros ->. Qed.

(** X2.  When the connection cannot be opened, a query does nothing else:
    a [psycopg2.Error] is reported and the run returns without asking the
    provider; any other exception raised by [connect] is not handled and
    reaches the caller. *)
Theorem query_connection_failure E table_name column_name search_phrase
    limit w :
  let r := semantic_search E table_name column_name search_phrase limit w in
  match db_fault E (db_calls w) Connect with
  | Some (PsycopgError s) =>
      res r = Ok None /\
      log r = [EDb Connect; EPrint (MsgConnectionError (PsycopgError s))]
  | Some (OtherException s) =>
      res r = Raise (OtherException s) /\ log r = [EDb Connect]
  | None => True
  end.
Proof.
  cbv zeta. destruct (db_fault E (db_calls w) Connect) as [[s|s]|] eqn:Hf;
    [| |done]; unfold semantic_search.
  - erewrite bind_ok; last first.
    { erewrite try_except_psycopg_raise
        by (eapply bind_raise; by apply db_call_fault).
      into; [reflexivity|]. ran. }
    done.
  - erewrite bind_raise; [done|].
    apply try_except_psycopg_pass. eapply bind_raise. by apply db_call_fault.
Qed.

(** X3.  When the provider fails on the phrase, a query reports it, closes
    the connection and returns: neither the catalog nor the table is
    consulted, whether the table exists or not. *)
Theorem query_provider_failure E table_name column_name search_phrase
    limit w e :
  no_db_faults E ->
  provider E (api_calls w) (VText search_phrase) = inl e ->
  let r := semantic_search E table_name column_name search_phrase limit w in
  res r = Ok None /\
  log r = [EDb Connect; EEmbed (VText search_phrase);
           EPrint (MsgPhraseError e); EDb CloseConnection].
Proof.
  intros Hnf Hp.
  assert (exists w', semantic_search E table_name column_name search_phrase
                       limit w
                     = Run (Ok None) w'
                         [EDb Connect; EEmbed (VText search_phrase);
                          EPrint (MsgPhraseError e); EDb CloseConnection])
    as [w' Hr]; [|by rewrite Hr].
  eexists. unfold semantic_search.
  into; [apply try_except_psycopg_ok; step Hnf; ran|].
  into.
  { erewrite try_except_raise
      by (eapply bind_raise; apply embed_raise; exact Hp).
    step Hnf. step Hnf. ran. }
  ran.
Qed.

Lemma E_mute_no_db_faults : no_db_faults E_mute.
Proof. intros n c. reflexivity. Defined.

Lemma query_provider_failure_witness :
  no_db_faults E_mute /\
  provider E_mute (api_calls (fresh db_notes)) (VText "anything")
  = inl (OtherException "unreachable") /\
  res (semantic_search E_mute "notes" "body" "anything" 2 (fresh db_notes))
  = Ok None.
Proof.
  split; [exact E_mute_no_db_faults|]. split; [reflexivity|].
  exact (proj1 (query_provider_failure E_mute "notes" "body" "anything" 2
                  (fresh db_notes) _ E_mute_no_db_faults eq_refl)).
Defined.

(** X4.  When the table exists but the text column or its embedding column
    does not, a query looks both columns up, names both in one diagnostic,
    closes the connection and returns without issuing the ranking query. *)
Theorem query_missing_column E table_name column_name search_phrase limit
    w q T :
  no_db_faults E ->
  provider E (api_calls w) (VText search_phrase) = inr q ->
  committed w !! table_name = Some T ->
  has_column T column_name && has_column T (column_name +:+ "_embeddings")
  = false ->
  let emb := column_name +:+ "_embeddings" in
  let r := semantic_search E table_name column_name search_phrase limit w in
  res r = Ok None /\
  log r = [EDb Connect; EEmbed (VText search_phrase);
           EDb (TableExists table_name);
           EDb (ColumnExists table_name column_name);
           EDb (ColumnExists table_name emb);
           EPrint (MsgColumnsMissing column_name emb table_name);
           EDb CloseConnection].
Proof.
  intros Hnf Hp Ht Hcols emb.
  assert (exists w', semantic_search E table_name column_name search_phrase
                       limit w
                     = Run (Ok None) w'
                         [EDb Connect; EEmbed (VText search_phrase);
                          EDb (TableExists table_name);
                          EDb (ColumnExists table_name column_name);
                          EDb (ColumnExists table_name emb);
                          EPrint (MsgColumnsMissing column_name emb table_name);
                          EDb CloseConnection])
    as [w' Hr]; [|by rewrite Hr].
  eexists. unfold semantic_search.
  into; [apply try_except_psycopg_ok; step Hnf; ran|].
  into.
  { eapply try_except_ok. into; [apply embed_ok; exact Hp|]. ran. }
  step Hnf. rewrite Ht. step Hnf. step Hnf.
  unfold db_has_column. world. rewrite Ht. fold emb.
  assert (Hno : negb (has_column T column_name) || negb (has_column T emb)
                = true).
  { fold emb in Hcols. by destruct (has_column T column_name),
      (has_column T emb). }
  rewrite Hno. step Hnf. step Hnf. ran.
Qed.

Lemma query_missing_column_witness :
  no_db_faults E_steady /\
  provider E_steady (api_calls (fresh db_docs)) (VText "hello") = inr [1%Q; 0%Q] /\
  committed (fresh db_docs) !! "docs" = Some docs /\
  has_column docs "body" && has_column docs ("body" +:+ "_embeddings") = false /\
  res (semantic_search E_steady "docs" "body" "hello" 5 (fresh db_docs)) = Ok None.
Proof.
  assert (H : has_column docs "body"
              && has_column docs ("body" +:+ "_embeddings") = false)
    by (vm_compute; reflexivity).
  split; [exact E_steady_no_db_faults|]. split; [reflexivity|].
  split; [exact docs_lookup|]. split; [exact H|].
  exact (proj1 (query_missing_column E_steady "docs" "body" "hello" 5
                  (fresh db_docs) _ docs E_steady_no_db_faults eq_refl
                  docs_lookup H)).
Defined.

(** X5.  The catalog lookups of a query are outside every [try]: when the
    first one raises, even a [psycopg2.Error], the exception reaches the
    caller, nothing is printed and the connection is not closed. *)
Theorem query_lookup_error_escapes E table_name column_name search_phrase
    limit w q e :
  db_fault E (db_calls w) Connect = None ->
  provider E (api_calls w) (VText search_phrase) = inr q ->
  db_fault E (S (db_calls w)) (TableExists table_name) = Some e ->
  let r := semantic_search E table_name column_name search_phrase limit w in
  res r = Raise e /\
  log r = [EDb Connect; EEmbed (VText search_phrase);
           EDb (TableExists table_name)].
Proof.
  intros Hc Hp Hf.
  assert (exists w', semantic_search E table_name column_name search_phrase
                       limit w
                     = Run (Raise e) w'
                         [EDb Connect; EEmbed (VText search_phrase);
                          EDb (TableExists table_name)])
    as [w' Hr]; [|by rewrite Hr].
  eexists. unfold semantic_search.
  into.
  { apply try_except_psycopg_ok. into; [|ran].
    unfold connect. rewrite db_call_run by exact Hc. reflexivity. }
  into.
  { eapply try_except_ok. into; [apply embed_ok; exact Hp|]. ran. }
  world. erewrite bind_raise
    by (unfold table_exists; apply db_call_fault; exact Hf).
  ran.
Qed.

Lemma query_lookup_error_escapes_witness :
  db_fault E_catalog_down (db_calls (fresh db_notes)) Connect = None /\
  res (semantic_search E_catalog_down "notes" "body" "anything" 2
         (fresh db_notes))
  = Raise (PsycopgError "server closed the connection").
Proof.
  split; [reflexivity|].
  exact (proj1 (query_lookup_error_escapes E_catalog_down "notes" "body"
                  "anything" 2 (fresh db_notes) _ _ eq_refl eq_refl eq_refl)).
Defined.

(** ** Query mode: the ranking query *)

Lemma notes_lookup : committed (fresh db_notes) !! "notes" = Some notes.
Proof. vm_compute. reflexivity. Defined.

(** Runs a query up to the ranking statement. *)
Ltac preflight Hnf Hp Ht Hc Hemb :=
  unfold semantic_search;
  into; [apply try_except_psycopg_ok; step Hnf; ran|];
  into; [eapply try_except_ok; into; [apply embed_ok; exact Hp|]; ran|];
  step Hnf; rewrite Ht; step Hnf; step Hnf;
  unfold db_has_column; world; rewrite Ht, Hc, Hemb; world.

(** X6.  A [psycopg2.Error] raised by the ranking query is caught: the run
    prints the diagnostic, closes the connection and returns nothing, and no
    result line is printed.  Any other exception raised there is not
    handled: it reaches the caller with the connection still open. *)
Theorem query_error_is_caught E table_name column_name search_phrase limit
    w q T e :
  only_ranking_faults E ->
  provider E (api_calls w) (VText search_phrase) = inr q ->
  committed w !! table_name = Some T ->
  has_column T column_name = true ->
  has_column T (column_name +:+ "_embeddings") = true ->
  db_fault E (4 + db_calls w)
    (NearestQuery table_name column_name (column_name +:+ "_embeddings") q limit)
  = Some e ->
  let emb := column_name +:+ "_embeddings" in
  let r := semantic_search E table_name column_name search_phrase limit w in
  let asked := [EDb Connect; EEmbed (VText search_phrase);
                EDb (TableExists table_name);
                EDb (ColumnExists table_name column_name);
                EDb (ColumnExists table_name emb);
                EDb (NearestQuery table_name column_name emb q limit)] in
  match e with
  | PsycopgError _ =>
      res r = Ok None /\
      log r = asked ++ [EPrint (MsgQueryError e); EDb CloseConnection]
  | OtherException _ => res r = Raise e /\ log r = asked
  end.
Proof.
  intros Hnf Hp Ht Hc Hemb Hf emb. cbv zeta.
  destruct e as [s|s].
  - assert (exists w', semantic_search E table_name column_name search_phrase
                         limit w
                       = Run (Ok None) w'
                           ([EDb Connect; EEmbed (VText search_phrase);
                             EDb (TableExists table_name);
                             EDb (ColumnExists table_name column_name);
                             EDb (ColumnExists table_name emb);
                             EDb (NearestQuery table_name column_name emb q
                                    limit)]
                            ++ [EPrint (MsgQueryError (PsycopgError s));
                                EDb CloseConnection]))
      as [w' Hr]; [|by rewrite Hr].
    eexists. preflight Hnf Hp Ht Hc Hemb.
    into.
    { erewrite try_except_psycopg_raise
        by (eapply bind_raise; unfold nearest_query; apply db_call_fault;
            exact Hf).
      step Hnf. step Hnf. ran. }
    ran.
  - assert (exists w', semantic_search E table_name column_name search_phrase
                         limit w
                       = Run (Raise (OtherException s)) w'
                           [EDb Connect; EEmbed (VText search_phrase);
                            EDb (TableExists table_name);
                            EDb (ColumnExists table_name column_name);
                            EDb (ColumnExists table_name emb);
                            EDb (NearestQuery table_name column_name emb q
                                   limit)])
      as [w' Hr]; [|by rewrite Hr].
    eexists. preflight Hnf Hp Ht Hc Hemb.
    erewrite bind_raise
      by (apply try_except_psycopg_pass; eapply bind_raise;
          unfold nearest_query; apply db_call_fault; exact Hf).
    ran.
Qed.

Lemma E_timeout_only_ranking_faults : only_ranking_faults E_timeout.
Proof. intros n c Hc. cbn. by rewrite Hc. Defined.

Lemma query_error_is_caught_witness :
  only_ranking_faults E_timeout /\
  committed (fresh db_notes) !! "notes" = Some notes /\
  res (semantic_search E_timeout "notes" "body" "anything" 2 (fresh db_notes))
  = Ok None.
Proof.
  split; [exact E_timeout_only_ranking_faults|]. split; [exact notes_lookup|].
  exact (proj1 (query_error_is_caught E_timeout "notes" "body" "anything" 2
                  (fresh db_notes) [0%Q] notes _
                  E_timeout_only_ranking_faults eq_refl notes_lookup
                  eq_refl eq_refl eq_refl)).
Defined.

Lemma no_db_faults_only_ranking E : no_db_faults E -> only_ranking_faults E.
Proof. intros H n c _. apply H. Qed.

(** X7.  A negative limit is passed on unchecked; the database refuses the
    query, and the run ends like any failed query: one diagnostic, the
    connection closed, nothing returned and no result line. *)
Theorem negative_limit_is_refused E table_name column_name search_phrase
    limit w q T :
  no_db_faults E ->
  provider E (api_calls w) (VText search_phrase) = inr q ->
  committed w !! table_name = Some T ->
  has_column T column_name = true ->
  has_column T (column_name +:+ "_embeddings") = true ->
  (limit < 0)%Z ->
  let emb := column_name +:+ "_embeddings" in
  let r := semantic_search E table_name column_name search_phrase limit w in
  res r = Ok None /\
  log r = [EDb Connect; EEmbed (VText search_phrase);
           EDb (TableExists table_name);
           EDb (ColumnExists table_name column_name);
           EDb (ColumnExists table_name emb);
           EDb (NearestQuery table_name column_name emb q limit);
           EPrint (MsgQueryError bad_limit); EDb CloseConnection].
Proof.
  intros Hnf Hp Ht Hc Hemb Hneg emb.
  assert (exists w', semantic_search E table_name column_name search_phrase
                       limit w
                     = Run (Ok None) w'
                         [EDb Connect; EEmbed (VText search_phrase);
                          EDb (TableExists table_name);
                          EDb (ColumnExists table_name column_name);
                          EDb (ColumnExists table_name emb);
                          EDb (NearestQuery table_name column_name emb q limit);
                          EPrint (MsgQueryError bad_limit);
                          EDb CloseConnection])
    as [w' Hr]; [|by rewrite Hr].
  eexists. preflight Hnf Hp Ht Hc Hemb.
  into.
  { erewrite try_except_psycopg_raise; last first.
    { eapply bind_raise. unfold nearest_query.
      rewrite db_call_run by apply Hnf. world. rewrite Ht, Hc, Hemb.
      cbn [andb]. rewrite bool_decide_eq_true_2 by done. reflexivity. }
    step Hnf. step Hnf. ran. }
  ran.
Qed.

Lemma negative_limit_is_refused_witness :
  no_db_faults E_query /\
  (-1 < 0)%Z /\
  res (semantic_search E_query "notes" "body" "anything" (-1) (fresh db_notes))
  = Ok None.
Proof.
  assert (Hnf : no_db_faults E_query) by (intros n c; reflexivity).
  split; [exact Hnf|]. split; [reflexivity|].
  exact (proj1 (negative_limit_is_refused E_query "notes" "body" "anything"
                  (-1) (fresh db_notes) [0%Q] notes Hnf eq_refl notes_lookup
                  eq_refl eq_refl eq_refl)).
Defined.




(** ** Query mode: the connection is given back *)

Ltac closed := rewrite ?app_nil_r, ?app_assoc; apply last_snoc.

(** The three early returns that follow a diagnostic. *)
Lemma diagnosed_return_closes {A} E m (x : A) w y w' l :
  (do _ <- print m; do _ <- close_connection E; ret x) w = Run (Ok y) w' l ->
  exists l0, l = l0 ++ [EDb CloseConnection].
Proof.
  intros H. binds H u Hp. binds H u' Hcl.
  apply db_call_inv in Hcl as [_ ->]. apply ret_inv in H as (_ & _ & ->).
  eexists. by rewrite app_nil_r.
Qed.

(** X9.  Once the connection is open, every normal return of a query, with
    or without results, has closed it: the last thing the run does is
    [conn.close()]. *)
Theorem query_return_closes E table_name column_name search_phrase limit w x :
  db_fault E (db_calls w) Connect = None ->
  res (semantic_search E table_name column_name search_phrase limit w) = Ok x ->
  last (log (semantic_search E table_name column_name search_phrase limit w))
  = Some (EDb CloseConnection).
Proof.
  intros Hc Hres. apply ok_run in Hres. revert Hres.
  generalize (after (semantic_search E table_name column_name search_phrase
                       limit w)).
  generalize (log (semantic_search E table_name column_name search_phrase
                     limit w)).
  intros l w' H. unfold semantic_search in H.
  binds H connected Hconn.
  assert (Hrun : (do _ <- connect E; ret true) w
                 = Run (Ok true) (reopen (next_call w)) [EDb Connect]).
  { into; [unfold connect; rewrite db_call_run by exact Hc; reflexivity|].
    ran. }
  rewrite (try_except_psycopg_ok _ _ _ _ _ _ Hrun) in Hconn.
  injection Hconn as <- <- <-. cbn [negb] in H.
  binds H phrase Hemb. destruct phrase as [q|].
  2:{ apply ret_inv in H as (_ & _ & ->).
      apply try_except_inv in Hemb as [Hemb|(e & wh & lm & lh & _ & Hh & ->)].
      { binds Hemb v Hv. by apply ret_inv in Hemb as [? _]. }
      apply diagnosed_return_closes in Hh as [before ->]. closed. }
  cbv zeta in H. binds H found Hf.
  destruct found; cbn [negb] in H;
    [|apply diagnosed_return_closes in H as [before ->]; closed].
  binds H text_column_exists Ht1. binds H embedding_column_exists Ht2.
  destruct (negb text_column_exists || negb embedding_column_exists);
    [apply diagnosed_return_closes in H as [before ->]; closed|].
  binds H got Hfetch. destruct got as [results|].
  2:{ apply ret_inv in H as (_ & _ & ->).
      apply try_except_psycopg_inv in Hfetch
        as [Hfetch|(e & wh & lm & lh & _ & Hh & ->)].
      { binds Hfetch v Hv. by apply ret_inv in Hfetch as [? _]. }
      apply diagnosed_return_closes in Hh as [before ->]. closed. }
  binds H u1 Hp1. binds H u2 Hp2. binds H u3 Hp3. binds H u4 Hcl.
  apply db_call_inv in Hcl as [_ ->]. apply ret_inv in H as (_ & _ & ->).
  closed.
Qed.

Lemma query_return_closes_witness :
  db_fault E_query (db_calls (fresh db_notes)) Connect = None /\
  last (log (semantic_search E_query "notes" "body" "anything" 2
               (fresh db_notes)))
  = Some (EDb CloseConnection).
Proof.
  split; [reflexivity|].
  exact (query_return_closes E_query "notes" "body" "anything" 2
           (fresh db_notes) _ eq_refl ltac:(vm_compute; reflexivity)).
Defined.

(** * Further properties of the backfill *)

(** ** What a run leaves alone *)

Lemma database_kept_refl t emb d db : database_kept t emb d db db.
Proof.
  split; [done|]. destruct (db !! t) as [T|]; [|done].
  repeat split; [auto..|]. apply Forall_Forall2_diag, Forall_forall.
  by intros r _.
Qed.

Lemma database_kept_alter t emb d db0 db T :
  database_kept t emb d db0 db ->
  db !! t = Some T ->
  has_column T emb = false ->
  database_kept t emb d db0 (<[t := with_column T emb (TVector d)]> db).
Proof.
  intros [Hother Ht] HT Hno. split.
  { intros t' Hne. rewrite lookup_insert_ne by done. by apply Hother. }
  rewrite lookup_insert_eq. rewrite HT in Ht.
  destruct (db0 !! t) as [T0|]; [|done].
  destruct Ht as (Hpk & Hold & Hnew & Hrows).
  unfold has_column in Hno.
  repeat split; cbn; [done| | |done].
  - intros c ty Hc. specialize (Hold c ty Hc).
    destruct (decide (emb = c)) as [->|Hne];
      [by rewrite Hold in Hno|by rewrite lookup_insert_ne].
  - intros c ty. destruct (decide (emb = c)) as [->|Hne].
    + rewrite lookup_insert_eq. intros [= <-]. by right.
    + rewrite lookup_insert_ne by done. apply Hnew.
Qed.

Lemma database_kept_update t emb d db0 db T v pk id :
  database_kept t emb d db0 db ->
  db !! t = Some T ->
  database_kept t emb d db0
    (<[t := with_rows T (update_rows emb v pk id (tbl_rows T))]> db).
Proof.
  intros [Hother Ht] HT. split.
  { intros t' Hne. rewrite lookup_insert_ne by done. by apply Hother. }
  rewrite lookup_insert_eq. rewrite HT in Ht.
  destruct (db0 !! t) as [T0|]; [|done].
  destruct Ht as (Hpk & Hold & Hnew & Hrows).
  repeat split; cbn; [done..|].
  unfold update_rows. apply Forall2_fmap_r.
  eapply Forall2_impl; [exact Hrows|]. intros r0 r [Hcols Hemb].
  unfold compose. destruct (matches pk id r); [|by split]. split.
  - intros c Hne. rewrite lookup_insert_ne by done. by apply Hcols.
  - intros _. by rewrite lookup_insert_eq.
Qed.

(** X10.  Whatever the database client and the provider do, and however the
    run ends, a backfill commits nothing but embeddings: every other table is
    left as it was, and the target table keeps its key, its columns (the only
    column that may appear is the embedding column, of the requested
    dimension; a column that existed keeps its type), its rows in their
    order, every value of every other column, and every embedding that was
    already stored remains stored. *)
Theorem backfill_keeps_the_rest E fuel table_name column_name batch_size
    vector_dim w :
  database_kept table_name (column_name +:+ "_embeddings") vector_dim
    (committed w)
    (committed (after (create_embeddings E fuel table_name column_name
                         batch_size vector_dim w))).
Proof.
  apply (create_embeddings_committed E
           (database_kept table_name (column_name +:+ "_embeddings")
              vector_dim (committed w))
           (fun _ => True) table_name (column_name +:+ "_embeddings")
           vector_dim); try done.
  - intros db T Hdb HT Hno. by apply database_kept_alter.
  - intros db T v pk id Hdb HT _. by apply database_kept_update.
  - apply database_kept_refl.
Qed.

(** ** Failures of the database client *)

(** X11.  When the connection cannot be opened, a backfill prints the
    report of that error and returns: no statement is issued, the provider is
    not asked, and there is neither a commit nor a rollback. *)
Theorem backfill_connection_failure E fuel table_name column_name batch_size
    vector_dim w e :
  db_fault E (db_calls w) Connect = Some e ->
  let r := create_embeddings E fuel table_name column_name batch_size
             vector_dim w in
  res r = Ok tt /\
  log r = [EDb Connect; EPrint (report e)] /\
  committed (after r) = committed w.
Proof.
  intros Hf.
  assert (create_embeddings E fuel table_name column_name batch_size
            vector_dim w
          = Run (Ok tt) (next_call w) [EDb Connect; EPrint (report e)])
    as Hr; [|by rewrite Hr].
  unfold create_embeddings.
  erewrite try_except_raise; last first.
  { unfold guarded_backfill, with_connection.
    apply bind_raise, bind_raise. unfold connect. by apply db_call_fault. }
  reflexivity.
Qed.

Lemma backfill_connection_failure_witness :
  db_fault E_offline (db_calls (fresh db_docs)) Connect
  = Some (PsycopgError "connection refused") /\
  log (create_embeddings E_offline 4 "docs" "body" 2 2 (fresh db_docs))
  = [EDb Connect;
     EPrint (MsgDatabaseError (PsycopgError "connection refused"))].
Proof.
  split; [reflexivity|].
  exact (proj1 (proj2 (backfill_connection_failure E_offline 4 "docs" "body"
                         2 2 (fresh db_docs) _ eq_refl))).
Defined.

(** X12.  In a backfill the catalog lookups are inside the guarded block:
    when the first one raises, the connection block rolls back, the error is
    reported and the run returns normally, with nothing committed. *)
Theorem backfill_lookup_error_is_reported E fuel table_name column_name
    batch_size vector_dim w e :
  db_fault E (db_calls w) Connect = None ->
  db_fault E (S (db_calls w)) (TableExists table_name) = Some e ->
  db_fault E (S (S (db_calls w))) Rollback = None ->
  let r := create_embeddings E fuel table_name column_name batch_size
             vector_dim w in
  res r = Ok tt /\
  log r = [EDb Connect; EDb (TableExists table_name); EDb Rollback;
           EPrint (report e)] /\
  committed (after r) = committed w.
Proof.
  intros Hc Hf Hrb.
  assert (exists w', create_embeddings E fuel table_name column_name
                       batch_size vector_dim w
                     = Run (Ok tt) w'
                         [EDb Connect; EDb (TableExists table_name);
                          EDb Rollback; EPrint (report e)]
                     /\ committed w' = committed w)
    as (w' & Hr & Hw); [|by rewrite Hr].
  eexists. split.
  - unfold create_embeddings.
    erewrite try_except_raise; last first.
    { unfold guarded_backfill, with_connection.
      apply bind_raise. into.
      { unfold connect. rewrite db_call_run by exact Hc. reflexivity. }
      world. erewrite bind_raise; last first.
      { erewrite try_except_raise
          by (unfold backfill; apply bind_raise; unfold table_exists;
              apply db_call_fault; exact Hf).
        into.
        { unfold rollback. rewrite db_call_run by exact Hrb. reflexivity. }
        ran. }
      ran. }
    reflexivity.
  - reflexivity.
Qed.

Lemma backfill_lookup_error_is_reported_witness :
  db_fault E_catalog_down (db_calls (fresh db_docs)) Connect = None /\
  log (create_embeddings E_catalog_down 4 "docs" "body" 2 2 (fresh db_docs))
  = [EDb Connect; EDb (TableExists "docs"); EDb Rollback;
     EPrint (MsgDatabaseError (PsycopgError "server closed the connection"))].
Proof.
  split; [reflexivity|].
  exact (proj1 (proj2 (backfill_lookup_error_is_reported E_catalog_down 4
                         "docs" "body" 2 2 (fresh db_docs) _
                         eq_refl eq_refl eq_refl))).
Defined.

(** ** Backfill: what is asked of the provider *)

Lemma requests_app l1 l2 : requests (l1 ++ l2) = requests l1 ++ requests l2.
Proof. apply omap_app. Qed.

Lemma log_prepend {A} l (r : run A) : log (prepend l r) = l ++ log r.
Proof. done. Qed.

Section Requests.

Context (E : env) (table_name embedding_column pk_column : string).

Lemma requests_process_row r w :
  requests (log (process_row E table_name embedding_column pk_column r w))
  = match r.2 with Some text => [text] | None => [] end.
Proof.
  destruct r as [id [text|]]; [|done]. cbn.
  unfold try_except, bind, embed.
  destruct (provider E (api_calls w) text) as [e|v]; cbn; [done|].
  unfold update, db_call. cbn.
  destruct (db_fault E (db_calls w) _); cbn; [done|].
  destruct (session w !! table_name) as [T|]; cbn; [|done].
  destruct (has_column T pk_column); cbn; [|done].
  destruct (tbl_columns T !! embedding_column) as [[| |d]|]; cbn; try done.
  by case_bool_decide.
Qed.

(** One request per fetched row that has a text, none for the others. *)
Lemma requests_process_rows rows w :
  requests (log (process_rows E table_name embedding_column pk_column rows w))
  = omap snd rows.
Proof.
  revert w. induction rows as [|r rows IH]; intros w; [done|].
  cbn [process_rows]. rewrite log_bind, requests_app, requests_process_row.
  rewrite process_row_ok, IH. destruct r as [id [text|]]; done.
Qed.

Context (batch_size : nat).
Hypothesis Hnf : only_update_faults E.

Lemma requests_fetch_loop fuel total_processed w rows :
  held_cursor w = Some rows ->
  length rows < fuel ->
  0 < batch_size ->
  requests (log (fetch_loop E fuel table_name embedding_column pk_column
                   batch_size total_processed w))
  = omap snd rows.
Proof.
  revert total_processed w rows.
  induction fuel as [|fuel IH]; intros total_processed w rows Hcur Hlen Hb;
    [lia|].
  rewrite (fetch_loop_step E table_name embedding_column pk_column batch_size
             Hnf fuel total_processed w rows Hcur). cbv zeta.
  destruct (take batch_size rows) as [|r0 chunk] eqn:Htake.
  - destruct batch_size; [lia|]. by destruct rows.
  - pose proof (take_drop_shorter _ _ _ _ Htake) as Hshort.
    rewrite log_prepend.
    change (EDb (Fetch batch_size) :: ?x) with ([EDb (Fetch batch_size)] ++ x).
    rewrite !requests_app, requests_process_rows.
    rewrite (IH _ _ (drop batch_size rows)); [| |lia|done].
    + change (requests [EDb (Fetch batch_size)]) with (@nil value).
      change (requests [EDb Commit; EPrint ?m]) with (@nil value).
      rewrite app_nil_l, app_nil_r, <- omap_app, <- Htake.
      by rewrite take_drop.
    + cbn [held_cursor publish next_call]. by rewrite process_rows_cursor.
Qed.

End Requests.

(** ** Backfill: a whole run around its loop *)

Section AroundTheLoop.

Context (E : env) (fuel : nat) (table_name column_name : string)
        (batch_size vector_dim : nat).
Hypothesis Hnf : only_update_faults E.

Let emb := column_name +:+ "_embeddings".

(** From [DECLARE] to the end of the [with] block, the loop left as it is. *)
Lemma stream_rows_loop pk_column T w :
  session w !! table_name = Some T ->
  held_cursor w = None ->
  has_column T pk_column = true ->
  has_column T column_name = true ->
  has_column T emb = true ->
  length (tbl_rows T) < fuel ->
  let rows := select_unembedded pk_column column_name emb (tbl_rows T) in
  let w2 := publish (next_call (set_cursor (Some rows) (next_call w))) in
  let r := fetch_loop E fuel table_name emb pk_column batch_size 0 w2 in
  stream_rows E fuel table_name column_name emb pk_column batch_size w =
  Run (Ok FellThrough)
      (publish (next_call (set_cursor None (next_call (after r)))))
      ([EDb (DeclareCursor table_name pk_column column_name emb); EDb Commit]
       ++ log r ++ [EDb CloseCursor; EDb Commit]).
Proof.
  intros Ht Hcur Hpk Hc Hemb Hlen rows w2 r.
  destruct (fetch_loop_run E table_name emb pk_column batch_size Hnf fuel 0
              w2 rows) as (w3 & l & Hloop & Hcur3 & _).
  { reflexivity. }
  { unfold rows, select_unembedded. rewrite length_fmap.
    pose proof (length_filter (fun r : row => r !! emb = None) (tbl_rows T)).
    lia. }
  unfold r. rewrite Hloop. cbn [after log].
  unfold stream_rows. into.
  { unfold declare_cursor. rewrite db_call_run by (apply Hnf; reflexivity).
    cbn. rewrite Ht, Hpk, Hc, Hemb, Hcur. reflexivity. }
  step Hnf. fold rows. fold w2.
  eapply prepend_bind_then; [exact Hloop|].
  into.
  { unfold close_cursor. rewrite db_call_run by (apply Hnf; reflexivity).
    cbn. rewrite Hcur3. reflexivity. }
  step Hnf. unfold prepend, ret. cbn [res after log app].
  f_equal. by rewrite <- !app_assoc.
Qed.

(** A run whose preflight passes, the loop left as it is: the loop starts
    on the prepared table, with the rows that lack an embedding in the
    cursor. *)
Lemma create_embeddings_loop T pk_column pk_columns w :
  committed w !! table_name = Some T ->
  has_column T column_name = true ->
  tbl_pkey T = pk_column :: pk_columns ->
  has_column T pk_column = true ->
  length (tbl_rows T) < fuel ->
  exists w2 w',
    session w2 = <[table_name := prepared T emb vector_dim]> (committed w) /\
    held_cursor w2
    = Some (select_unembedded pk_column column_name emb (tbl_rows T)) /\
    api_calls w2 = api_calls w /\
    create_embeddings E fuel table_name column_name batch_size vector_dim w =
    Run (Ok tt) w'
      ([EDb Connect; EDb (TableExists table_name);
        EDb (ColumnExists table_name column_name);
        EDb (PrimaryKey table_name);
        EDb (AddVectorColumn table_name emb vector_dim); EDb Commit;
        EDb (DeclareCursor table_name pk_column column_name emb); EDb Commit]
       ++ log (fetch_loop E fuel table_name emb pk_column batch_size 0 w2)
       ++ [EDb CloseCursor; EDb Commit; EDb Commit; EPrint MsgCompleted]) /\
    committed w'
    = session (after (fetch_loop E fuel table_name emb pk_column batch_size 0
                        w2)).
Proof.
  intros Ht Hc Hpk Hpkc Hlen.
  set (w0 := reopen (next_call w)).
  set (w4 := next_call (next_call (next_call (next_call w0)))).
  set (T1 := prepared T emb vector_dim).
  set (w5 := publish (next_call
               (set_session (<[table_name := T1]> (session w4)) w4))).
  assert (Hrows : tbl_rows T1 = tbl_rows T).
  { unfold T1, prepared. by destruct (has_column T emb). }
  assert (HT1 : forall x, has_column T x = true -> has_column T1 x = true).
  { intros x Hx. unfold T1, prepared.
    destruct (has_column T emb); [done|by apply has_column_with_column]. }
  assert (Hemb : has_column T1 emb = true).
  { unfold T1, prepared. destruct (has_column T emb) eqn:He; [done|].
    apply has_column_added. }
  pose proof (stream_rows_loop pk_column T1 w5) as Hs.
  rewrite Hrows in Hs. cbv zeta in Hs.
  specialize (Hs (lookup_insert_eq _ _ _) eq_refl (HT1 _ Hpkc) (HT1 _ Hc)
                Hemb Hlen).
  set (w2 := publish (next_call (set_cursor
               (Some (select_unembedded pk_column column_name emb (tbl_rows T)))
               (next_call w5)))) in *.
  assert (Halter : add_vector_column E table_name emb vector_dim
                      (next_call (next_call (next_call w0)))
                    = Run (Ok tt)
                        (set_session (<[table_name := T1]> (session w4)) w4)
                        [EDb (AddVectorColumn table_name emb vector_dim)]).
  { unfold add_vector_column.
    rewrite db_call_run by (apply Hnf; reflexivity).
    cbn. rewrite Ht. unfold T1, prepared.
    destruct (has_column T emb); [|reflexivity].
    unfold set_session. cbn. rewrite insert_id by done. reflexivity. }
  eassert (Hb : backfill E fuel table_name column_name batch_size vector_dim
                  w0 = Run (Ok FellThrough) _ _).
  { unfold backfill. step Hnf. rewrite Ht. step Hnf.
    unfold db_has_column. rewrite Ht, Hc. step Hnf. rewrite Ht, Hpk.
    cbv zeta. into; [exact Halter|].
    step Hnf. fold emb.
    lazymatch goal with
    | |- context [stream_rows _ _ _ _ _ _ _ ?W] => change W with w5
    end.
    rewrite Hs. unfold prepend. cbn [res after log]. reflexivity. }
  rewrite (create_embeddings_fell_through E fuel table_name column_name
             batch_size vector_dim w Hnf _ _ Hb).
  cbn [app]. rewrite <- !app_assoc. cbn [app].
  eexists w2, _. split; [reflexivity|]. split; [reflexivity|].
  split; [reflexivity|]. split; reflexivity.
Qed.

End AroundTheLoop.

Lemma omap_select_unembedded pk c emb rows :
  omap snd (select_unembedded pk c emb rows)
  = omap (fun r : row => r !! c) (filter (fun r => r !! emb = None) rows).
Proof.
  unfold select_unembedded.
  induction (filter (fun r : row => r !! emb = None) rows) as [|r l IH];
    [done|].
  cbn. rewrite IH. reflexivity.
Qed.

(** X13.  When the preflight passes, the batch size is positive and the
    database client fails at most on point updates, the provider is asked
    exactly once for every row that lacks an embedding and has a text, with
    that text and in table order, and for nothing else: a failed row is not
    asked again, and a row without text costs no request. *)
Theorem requests_are_the_missing_texts E fuel table_name column_name
    batch_size vector_dim w T pk_column pk_columns :
  only_update_faults E ->
  committed w !! table_name = Some T ->
  has_column T column_name = true ->
  tbl_pkey T = pk_column :: pk_columns ->
  has_column T pk_column = true ->
  length (tbl_rows T) < fuel ->
  0 < batch_size ->
  requests (log (create_embeddings E fuel table_name column_name batch_size
                   vector_dim w))
  = omap (fun r : row => r !! column_name)
      (filter (fun r => r !! (column_name +:+ "_embeddings") = None)
         (tbl_rows T)).
Proof.
  intros Hnf Ht Hc Hpk Hpkc Hlen Hb.
  destruct (create_embeddings_loop E fuel table_name column_name batch_size
              vector_dim Hnf T pk_column pk_columns w Ht Hc Hpk Hpkc Hlen)
    as (w2 & w' & _ & Hcur & _ & Hrun & _).
  rewrite Hrun. cbn [log]. rewrite !requests_app.
  rewrite (requests_fetch_loop E table_name _ pk_column batch_size Hnf fuel 0
             w2 _ Hcur); [|by unfold select_unembedded; rewrite length_fmap;
      pose proof (length_filter
                    (fun r : row => r !! (column_name +:+ "_embeddings") = None)
                    (tbl_rows T)); lia|done].
  change (requests [EDb Connect; _; _; _; _; _; _; _]) with (@nil value).
  change (requests [EDb CloseCursor; _; _; _]) with (@nil value).
  rewrite app_nil_l, app_nil_r. apply omap_select_unembedded.
Qed.

Lemma requests_are_the_missing_texts_witness :
  only_update_faults E_steady /\
  committed (fresh db_docs) !! "docs" = Some docs /\
  requests (log (create_embeddings E_steady 4 "docs" "body" 2 2
                   (fresh db_docs)))
  = [VText "a"; VText "c"].
Proof.
  split; [exact E_steady_only_update_faults|]. split; [exact docs_lookup|].
  exact (requests_are_the_missing_texts E_steady 4 "docs" "body" 2 2
           (fresh db_docs) docs "id" [] E_steady_only_update_faults
           docs_lookup eq_refl eq_refl eq_refl ltac:(cbn; lia) ltac:(lia)).
Defined.

(** ** Backfill: the batch size *)

Section Batches.

Context (E : env) (table_name embedding_column pk_column : string).
Hypothesis Hnf : no_db_faults E.

Lemma process_row_same_session r w1 w2 :
  same_session w1 w2 ->
  same_session
    (after (process_row E table_name embedding_column pk_column r w1))
    (after (process_row E table_name embedding_column pk_column r w2)).
Proof.
  intros [Hs Ha]. destruct r as [id [text|]]; [|done]. cbn.
  unfold try_except, bind, embed. rewrite Ha.
  destruct (provider E (api_calls w2) text) as [e|v]; cbn;
    [by split; cbn; rewrite ?Ha|].
  unfold update, db_call. cbn. rewrite !Hnf. cbn. rewrite Hs.
  destruct (session w2 !! table_name) as [T|]; cbn;
    [|by split; cbn; rewrite ?Hs, ?Ha].
  destruct (has_column T pk_column); cbn; [|by split; cbn; rewrite ?Hs, ?Ha].
  destruct (tbl_columns T !! embedding_column) as [[| |d]|]; cbn;
    try (by split; cbn; rewrite ?Hs, ?Ha).
  case_bool_decide; cbn; by split; cbn; rewrite ?Hs, ?Ha.
Qed.

Lemma process_rows_cons r rows w :
  after (process_rows E table_name embedding_column pk_column (r :: rows) w)
  = after (process_rows E table_name embedding_column pk_column rows
             (after (process_row E table_name embedding_column pk_column r w))).
Proof.
  cbn [process_rows].
  by rewrite (bind_ok _ _ _ _ _ _ (ok_run _ _ _ (process_row_ok E _ _ _ r w))).
Qed.

Lemma process_rows_same_session rows w1 w2 :
  same_session w1 w2 ->
  same_session
    (after (process_rows E table_name embedding_column pk_column rows w1))
    (after (process_rows E table_name embedding_column pk_column rows w2)).
Proof.
  revert w1 w2. induction rows as [|r rows IH]; intros w1 w2 Hw; [done|].
  rewrite !process_rows_cons. by apply IH, process_row_same_session.
Qed.

Lemma process_rows_app rows1 rows2 w :
  after (process_rows E table_name embedding_column pk_column
           (rows1 ++ rows2) w)
  = after (process_rows E table_name embedding_column pk_column rows2
             (after (process_rows E table_name embedding_column pk_column
                       rows1 w))).
Proof.
  revert w. induction rows1 as [|r rows1 IH]; intros w; [done|].
  rewrite <- app_comm_cons, !process_rows_cons. apply IH.
Qed.

(** However the cursor is cut into batches, the loop leaves the session as
    one pass over all its rows would. *)
Lemma fetch_loop_one_pass batch_size fuel total_processed w rows :
  held_cursor w = Some rows ->
  length rows < fuel ->
  0 < batch_size ->
  same_session
    (after (fetch_loop E fuel table_name embedding_column pk_column
              batch_size total_processed w))
    (after (process_rows E table_name embedding_column pk_column rows w)).
Proof.
  assert (Hup : only_update_faults E) by (intros n c _; apply Hnf).
  revert total_processed w rows.
  induction fuel as [|fuel IH]; intros total_processed w rows Hcur Hlen Hb;
    [lia|].
  rewrite (fetch_loop_step E table_name embedding_column pk_column batch_size
             Hup fuel total_processed w rows Hcur). cbv zeta.
  destruct (take batch_size rows) as [|r0 chunk] eqn:Htake.
  - destruct batch_size; [lia|]. by destruct rows.
  - pose proof (take_drop_shorter _ _ _ _ Htake) as Hshort.
    unfold prepend. cbn [after].
    set (w1 := set_cursor (Some (drop batch_size rows)) (next_call w)).
    set (r := process_rows E table_name embedding_column pk_column
                (r0 :: chunk) w1).
    destruct (IH (total_processed + length (r0 :: chunk))
                (publish (next_call (after r))) (drop batch_size rows))
      as [Hs Ha]; [|lia|done|].
    { cbn [held_cursor publish next_call]. unfold r.
      by rewrite process_rows_cursor. }
    replace (process_rows E table_name embedding_column pk_column rows w)
      with (process_rows E table_name embedding_column pk_column
              ((r0 :: chunk) ++ drop batch_size rows) w)
      by (by rewrite <- Htake, take_drop).
    rewrite process_rows_app.
    destruct (process_rows_same_session (drop batch_size rows)
                (publish (next_call (after r)))
                (after (process_rows E table_name embedding_column pk_column
                          (r0 :: chunk) w))) as [Hs' Ha'].
    { destruct (process_rows_same_session (r0 :: chunk) w1 w) as [Hs1 Ha1];
        [done|]. by split. }
    split; congruence.
Qed.

End Batches.



(** X15.  With batch size 0 a run whose preflight passes embeds nothing and
    still reports completion: the only [FETCH] asks for no row and ends the
    loop, the provider is never asked, no row is updated, and all that is
    committed is the embedding column, whatever the table holds. *)
Theorem zero_batch_size_embeds_nothing E fuel table_name column_name
    vector_dim w T pk_column pk_columns :
  only_update_faults E ->
  committed w !! table_name = Some T ->
  has_column T column_name = true ->
  tbl_pkey T = pk_column :: pk_columns ->
  has_column T pk_column = true ->
  length (tbl_rows T) < fuel ->
  let emb := column_name +:+ "_embeddings" in
  let r := create_embeddings E fuel table_name column_name 0 vector_dim w in
  res r = Ok tt /\
  log r = [EDb Connect; EDb (TableExists table_name);
           EDb (ColumnExists table_name column_name);
           EDb (PrimaryKey table_name);
           EDb (AddVectorColumn table_name emb vector_dim); EDb Commit;
           EDb (DeclareCursor table_name pk_column column_name emb);
           EDb Commit; EDb (Fetch 0); EDb CloseCursor; EDb Commit;
           EDb Commit; EPrint MsgCompleted] /\
  committed (after r)
  = <[table_name := prepared T emb vector_dim]> (committed w).
Proof.
  intros Hnf Ht Hc Hpk Hpkc Hlen emb.
  destruct (create_embeddings_loop E fuel table_name column_name 0
              vector_dim Hnf T pk_column pk_columns w Ht Hc Hpk Hpkc Hlen)
    as (w2 & w' & Hs & Hcur & _ & Hrun & Hfin).
  cbv zeta. rewrite Hrun. cbn [res after log]. rewrite Hfin.
  destruct fuel as [|fuel']; [lia|].
  rewrite (fetch_loop_step E table_name (column_name +:+ "_embeddings")
             pk_column 0 Hnf fuel' 0 w2 _ Hcur).
  cbv zeta. rewrite take_0. cbn [after log session set_cursor next_call].
  rewrite Hs. split; [reflexivity|]. split; reflexivity.
Qed.

Lemma zero_batch_size_embeds_nothing_witness :
  only_update_faults E_steady /\
  committed (fresh db_docs) !! "docs" = Some docs /\
  requests (log (create_embeddings E_steady 4 "docs" "body" 0 2
                   (fresh db_docs))) = [].
Proof.
  split; [exact E_steady_only_update_faults|]. split; [exact docs_lookup|].
  pose proof (zero_batch_size_embeds_nothing E_steady 4 "docs" "body" 2
                (fresh db_docs) docs "id" [] E_steady_only_update_faults
                docs_lookup eq_refl eq_refl eq_refl ltac:(cbn; lia))
    as (_ & Hl & _).
  rewrite Hl. reflexivity.
Defined.

(** ** Backfill: a run in which nothing fails *)

Lemma length_append (a b : string) :
  String.length (a +:+ b) = String.length a + String.length b.
Proof.
  induction a as [|x a IH]; [done|].
  change (String x a +:+ b) with (String x (a +:+ b)).
  cbn [String.length]. by rewrite IH.
Qed.

Lemma embedding_column_is_another c : c <> c +:+ "_embeddings".
Proof.
  intros H. apply (f_equal String.length) in H.
  rewrite length_append in H. cbn in H. lia.
Qed.

Section Clean.

Context (E : env) (table_name embedding_column pk_column : string) (d : nat).
Hypothesis Hnf : no_db_faults E.
Hypothesis Hp : forall n x, exists v, provider E n x = inr v /\ length v = d.

Lemma clean_process_row id text w :
  ready table_name embedding_column pk_column d (session w) ->
  let w1 := after (process_row E table_name embedding_column pk_column
                     (id, Some text) w) in
  ready table_name embedding_column pk_column d (session w1) /\
  forall i, id = Some i ->
    embedded_in (session w1) table_name embedding_column pk_column i.
Proof.
  intros (T & Ht & Hpk & Hty). cbn. unfold try_except, bind, embed.
  destruct (Hp (api_calls w) text) as (v & -> & Hlen). cbn.
  unfold update, db_call. cbn. rewrite Hnf. cbn. rewrite Ht, Hpk, Hty.
  rewrite bool_decide_eq_true_2 by done. cbn. split.
  - exists (with_rows T (update_rows embedding_column v pk_column id
                           (tbl_rows T))).
    by rewrite lookup_insert_eq.
  - intros i ->.
    exists (with_rows T (update_rows embedding_column v pk_column (Some i)
                           (tbl_rows T))).
    rewrite lookup_insert_eq. split; [done|]. cbn. intros r Hr Hkey.
    eapply updated_rows_embedded; [exact Hr|by left|done].
Qed.

(** Every fetched row that has a key and a text ends up embedded. *)
Lemma clean_process_rows rows w :
  ready table_name embedding_column pk_column d (session w) ->
  let w1 := after (process_rows E table_name embedding_column pk_column
                     rows w) in
  ready table_name embedding_column pk_column d (session w1) /\
  forall i text, (Some i, Some text) ∈ rows ->
    embedded_in (session w1) table_name embedding_column pk_column i.
Proof.
  revert w. induction rows as [|[id text] rows IH]; intros w Hw.
  { split; [done|]. intros i text Hin. by apply elem_of_nil in Hin. }
  cbv zeta. rewrite process_rows_cons.
  set (w0 := after (process_row E table_name embedding_column pk_column
                      (id, text) w)).
  assert (H0 : ready table_name embedding_column pk_column d (session w0) /\
               forall i x, id = Some i -> text = Some x ->
                 embedded_in (session w0) table_name embedding_column
                   pk_column i).
  { unfold w0. destruct text as [x|].
    - destruct (clean_process_row id x w Hw) as [Hr He].
      split; [done|]. intros i x' Hid _. by apply He.
    - split; [done|]. by intros i x' _ [=]. }
  destruct H0 as [Hr0 He0]. destruct (IH w0 Hr0) as [Hr1 He1].
  split; [done|]. intros i x Hin.
  apply elem_of_cons in Hin as [[= <- <-]|Hin]; [|by eapply He1].
  apply embedded_kept. by eapply He0.
Qed.

End Clean.

(** X16.  When nothing fails (the database client raises on no call and the
    provider answers every request with a vector of the column's dimension),
    the preflight passes, every row has a key value and the batch size is
    positive, a backfill completes the table: after the run every row that
    has a text holds an embedding. *)
Theorem clean_run_embeds_every_text E fuel table_name column_name batch_size
    vector_dim w T pk_column pk_columns :
  no_db_faults E ->
  (forall n x, exists v, provider E n x = inr v /\ length v = vector_dim) ->
  committed w !! table_name = Some T ->
  has_column T column_name = true ->
  tbl_pkey T = pk_column :: pk_columns ->
  has_column T pk_column = true ->
  (forall ty, tbl_columns T !! (column_name +:+ "_embeddings") = Some ty ->
     ty = TVector vector_dim) ->
  (forall r, r ∈ tbl_rows T -> is_Some (r !! pk_column)) ->
  length (tbl_rows T) < fuel ->
  0 < batch_size ->
  exists T',
    committed (after (create_embeddings E fuel table_name column_name
                        batch_size vector_dim w)) !! table_name = Some T' /\
    forall r, r ∈ tbl_rows T' ->
      is_Some (r !! column_name) ->
      is_Some (r !! (column_name +:+ "_embeddings")).
Proof.
  intros Hnf Hp Ht Hc Hpk Hpkc Hty Hkeys Hlen Hb.
  assert (Hup : only_update_faults E) by (intros n c _; apply Hnf).
  pose proof (embedding_column_is_another column_name) as Hne.
  assert (Hfit : length (select_unembedded pk_column column_name
                           (column_name +:+ "_embeddings") (tbl_rows T))
                 < fuel).
  { unfold select_unembedded. rewrite length_fmap.
    pose proof (length_filter
                  (fun r : row => r !! (column_name +:+ "_embeddings") = None)
                  (tbl_rows T)).
    lia. }
  assert (Hkept : database_kept table_name (column_name +:+ "_embeddings")
                    vector_dim (committed w)
                    (committed (after (create_embeddings E fuel table_name
                                         column_name batch_size vector_dim
                                         w)))).
  { apply (create_embeddings_committed E
             (database_kept table_name (column_name +:+ "_embeddings")
                vector_dim (committed w))
             (fun _ => True) table_name (column_name +:+ "_embeddings")
             vector_dim); try done.
    - intros db T0 Hdb HT Hno. by apply database_kept_alter.
    - intros db T0 v pk id Hdb HT _. by apply database_kept_update.
    - apply database_kept_refl. }
  destruct (create_embeddings_loop E fuel table_name column_name batch_size
              vector_dim Hup T pk_column pk_columns w Ht Hc Hpk Hpkc Hlen)
    as (w2 & w' & Hs & Hcur & _ & Hrun & Hfin).
  rewrite Hrun in *. cbn [after] in *. rewrite Hfin in *.
  destruct (fetch_loop_one_pass E table_name (column_name +:+ "_embeddings")
              pk_column Hnf batch_size fuel 0 w2 _ Hcur Hfit Hb)
    as [Hsess _].
  rewrite Hsess in *.
  destruct (clean_process_rows E table_name (column_name +:+ "_embeddings")
              pk_column vector_dim Hnf Hp
              (select_unembedded pk_column column_name
                 (column_name +:+ "_embeddings") (tbl_rows T)) w2)
    as [_ Hdone].
  { rewrite Hs.
    exists (prepared T (column_name +:+ "_embeddings") vector_dim).
    rewrite lookup_insert_eq. split; [done|]. unfold prepared.
    destruct (has_column T (column_name +:+ "_embeddings")) eqn:He.
    - split; [done|]. unfold has_column in He.
      destruct (tbl_columns T !! (column_name +:+ "_embeddings"))
        as [ty|] eqn:Hcol; [|done].
      by rewrite (Hty ty).
    - split; [by apply has_column_with_column|]. cbn.
      apply lookup_insert_eq. }
  cbv zeta in Hdone.
  destruct Hkept as [_ Hk]. rewrite Ht in Hk.
  destruct (session (after (process_rows _ _ _ _ _ _)) !! table_name)
    as [T'|] eqn:HT'; [|done].
  exists T'. split; [done|]. intros r' Hr' Hc'.
  destruct Hk as (_ & _ & _ & Hrows).
  apply list_elem_of_lookup in Hr' as [k Hk'].
  destruct (Forall2_lookup_r _ _ _ _ _ Hrows Hk') as (r & Hr & [Hsame Hmono]).
  destruct (r !! (column_name +:+ "_embeddings")) as [x|] eqn:Hremb;
    [by apply Hmono|].
  assert (Hin : r ∈ tbl_rows T) by (by eapply list_elem_of_lookup_2).
  destruct (Hkeys r Hin) as [i Hi].
  rewrite (Hsame column_name Hne) in Hc'. destruct Hc' as [text Htext].
  destruct (Hdone i text) as (T'' & HT'' & Hall).
  { unfold select_unembedded. apply list_elem_of_fmap. exists r.
    split; [by rewrite Hi, Htext|]. by apply list_elem_of_filter. }
  rewrite HT' in HT''. injection HT'' as <-.
  destruct (Hall r') as [v Hv].
  { by eapply list_elem_of_lookup_2. }
  { rewrite Hsame; [done|]. intros ->. congruence. }
  by eexists.
Qed.

(** Every request is answered with the same two-component vector, and
    [docs] is keyed. *)
Lemma clean_run_embeds_every_text_witness :
  no_db_faults E_steady /\
  (forall r, r ∈ tbl_rows docs -> is_Some (r !! "id")) /\
  exists T',
    committed (after (create_embeddings E_steady 4 "docs" "body" 2 2
                        (fresh db_docs))) !! "docs" = Some T' /\
    forall r, r ∈ tbl_rows T' ->
      is_Some (r !! "body") -> is_Some (r !! ("body" +:+ "_embeddings")).
Proof.
  assert (Hkeys : forall r, r ∈ tbl_rows docs -> is_Some (r !! "id")).
  { intros r Hr. cbn in Hr.
    repeat (apply elem_of_cons in Hr as [->|Hr];
            [eexists; vm_compute; reflexivity|]).
    by apply elem_of_nil in Hr. }
  split; [exact E_steady_no_db_faults|]. split; [exact Hkeys|].
  apply (clean_run_embeds_every_text E_steady 4 "docs" "body" 2 2
           (fresh db_docs) docs "id" [] E_steady_no_db_faults).
  - intros n x. by exists [1%Q; 0%Q].
  - exact docs_lookup.
  - reflexivity.
  - reflexivity.
  - reflexivity.
  - intros ty Hcol. vm_compute in Hcol. discriminate.
  - exact Hkeys.
  - cbn. lia.
  - lia.
Defined.
